(** * Blood-sugar dashboard: loader, normalizer and aggregator

    A shallow embedding of the logic of [BloodSugarDashboard.jsx]
    ([loadCSVData], [processedData], [fastingData], [randomData], [stats])
    together with the properties of the data pipeline.

    Conventions of the embedding.
    - A JavaScript value is a [JSValue]; a JavaScript number is a [JSNum]:
      NaN, the two infinities, or a finite binary64 value carried as the
      rational it denotes.  Sums, quotients and decimal literals are rounded
      to binary64 by [round64] (to nearest, ties to even, overflow to
      infinity); the sign of zero is not represented.
    - A JavaScript string is a [string]; its characters stand for code
      units below 256.
    - A [Date] is its time value: [Some t] for [t] milliseconds since the
      epoch, [None] for an Invalid Date.
    - Built-ins whose result ECMA-262 leaves to the implementation or to the
      environment (date parsing, the local time zone and locale data, the
      digits of a non-integral number) are the fields of the class
      [Platform]; general theorems hold for every platform. *)

From Stdlib Require Import ZArith QArith Qround Qabs Qpower Lqa String Ascii List Lia Permutation.
From stdpp Require Import base gmap strings list sorting pretty.

Local Open Scope string_scope.

(** ** JavaScript numbers *)

Inductive JSNum : Type :=
| NaN
| NegInf
| Fin (q : Q)
| PosInf.

Definition isNaN (x : JSNum) : bool :=
  match x with NaN => true | _ => false end.

(** [x > y] of JavaScript: false as soon as one side is NaN. *)
Definition num_gt (x y : JSNum) : bool :=
  match x, y with
  | NaN, _ | _, NaN => false
  | PosInf, PosInf => false
  | PosInf, _ => true
  | _, PosInf => false
  | NegInf, _ => false
  | Fin _, NegInf => true
  | Fin a, Fin b => if Qlt_le_dec b a then true else false
  end.

Definition num_lt (x y : JSNum) : bool := num_gt y x.

(** *** Rounding to binary64 *)

(** The integer [k] with [2 ^ k <= a < 2 ^ (k + 1)], for [a] positive. *)
Definition ilog2 (a : Q) : Z :=
  if Qle_bool 1 a then Z.log2 (Qfloor a)
  else (- Z.log2_up (Qceiling (/ a)))%Z.

(** The integer nearest to [x], the even one of two equally near. *)
Definition round_half_even (x : Q) : Z :=
  let f := Qfloor x in
  match ((x - inject_Z f) ?= (1 # 2))%Q with
  | Lt => f
  | Gt => (f + 1)%Z
  | Eq => if Z.even f then f else (f + 1)%Z
  end.

(** The binary64 value nearest to [q]: a significand of at most 53 bits
    times a power of two not below [2 ^ -1074], the even significand of two
    equally near values, infinity from [2 ^ 1024] on. *)
Definition round64 (q : Q) : JSNum :=
  let a := Qabs q in
  if Qeq_bool a 0 then Fin 0
  else
    let e := Z.max (ilog2 a - 52) (-1074) in
    let m := round_half_even (a / 2 ^ e) in
    let r := Qred (inject_Z m * 2 ^ e) in
    if Qle_bool (2 ^ 1024) r
    then (if Qle_bool 0 q then PosInf else NegInf)
    else Fin (if Qle_bool 0 q then r else - r).

(** [x + y]. *)
Definition num_add (x y : JSNum) : JSNum :=
  match x, y with
  | NaN, _ | _, NaN => NaN
  | PosInf, NegInf | NegInf, PosInf => NaN
  | PosInf, _ | _, PosInf => PosInf
  | NegInf, _ | _, NegInf => NegInf
  | Fin a, Fin b => round64 (a + b)
  end.

Definition num_neg (x : JSNum) : JSNum :=
  match x with
  | NaN => NaN
  | NegInf => PosInf
  | PosInf => NegInf
  | Fin a => Fin (- a)
  end.

(** [x - y]. *)
Definition num_sub (x y : JSNum) : JSNum := num_add x (num_neg y).

Definition Qsign_pos (a : Q) : bool := if Qlt_le_dec 0 a then true else false.
Definition Qis_zero (a : Q) : bool := Qeq_bool a 0.

(** [x / y]. *)
Definition num_div (x y : JSNum) : JSNum :=
  match x, y with
  | NaN, _ | _, NaN => NaN
  | Fin a, Fin b =>
      if Qis_zero b then
        if Qis_zero a then NaN else if Qsign_pos a then PosInf else NegInf
      else round64 (a / b)
  | Fin _, _ => Fin 0
  | PosInf, Fin b => if Qsign_pos b || Qis_zero b then PosInf else NegInf
  | NegInf, Fin b => if Qsign_pos b || Qis_zero b then NegInf else PosInf
  | _, _ => NaN
  end.

(** Truthiness of a number: NaN and zero are falsy. *)
Definition num_truthy (x : JSNum) : bool :=
  match x with
  | NaN => false
  | Fin a => negb (Qis_zero a)
  | _ => true
  end.

(** ** JavaScript values *)

Inductive JSValue : Type :=
| JSUndefined
| JSNull
| JSBool (b : bool)
| JSNumber (n : JSNum)
| JSString (s : string).

Definition truthy (v : JSValue) : bool :=
  match v with
  | JSUndefined | JSNull => false
  | JSBool b => b
  | JSNumber n => num_truthy n
  | JSString s => negb (String.eqb s "")
  end.

(** [a || b]. *)
Definition js_or (a b : JSValue) : JSValue := if truthy a then a else b.

(** [a === b]. *)
Definition strict_eq (a b : JSValue) : bool :=
  match a, b with
  | JSUndefined, JSUndefined => true
  | JSNull, JSNull => true
  | JSBool x, JSBool y => Bool.eqb x y
  | JSString x, JSString y => String.eqb x y
  | JSNumber (Fin x), JSNumber (Fin y) => Qeq_bool x y
  | JSNumber PosInf, JSNumber PosInf => true
  | JSNumber NegInf, JSNumber NegInf => true
  | _, _ => false
  end.

(** [ToNumber] on the primitives other than strings. *)
Definition ToNumber_prim (v : JSValue) : JSNum :=
  match v with
  | JSUndefined => NaN
  | JSNull => Fin 0
  | JSBool true => Fin 1
  | JSBool false => Fin 0
  | JSNumber n => n
  | JSString _ => NaN
  end.

(** ** Platform built-ins *)

Class Platform : Type := {
  (** [Date.parse] on a string; [None] is NaN. *)
  Date_parse : string -> option Z;
  (** [Number::toString] (radix 10) of a finite number. *)
  Number_toString : Q -> string;
  (** [toLocaleDateString('en-US', { month: 'short', day: 'numeric' })] of a
      valid time value, in the local time zone. *)
  toLocaleDateString : Z -> string
}.

(** [ToString]. *)
Definition ToString `{Platform} (v : JSValue) : string :=
  match v with
  | JSUndefined => "undefined"
  | JSNull => "null"
  | JSBool true => "true"
  | JSBool false => "false"
  | JSNumber NaN => "NaN"
  | JSNumber PosInf => "Infinity"
  | JSNumber NegInf => "-Infinity"
  | JSNumber (Fin q) => Number_toString q
  | JSString s => s
  end.

(** *** [parseFloat] *)

(** White space and line terminators among the code units below 256. *)
Definition is_whitespace (c : ascii) : bool :=
  let n := nat_of_ascii c in
  (n =? 9)%nat || (n =? 10)%nat || (n =? 11)%nat || (n =? 12)%nat
  || (n =? 13)%nat || (n =? 32)%nat || (n =? 160)%nat.

Fixpoint trim_start (s : string) : string :=
  match s with
  | String c s' => if is_whitespace c then trim_start s' else s
  | EmptyString => EmptyString
  end.

Definition digit_of (c : ascii) : option Z :=
  let n := nat_of_ascii c in
  if (48 <=? n)%nat && (n <=? 57)%nat then Some (Z.of_nat (n - 48)) else None.

(** Reads the longest run of decimal digits at the head of [s], continuing
    the numeral [acc]: the numeral, the number of digits read, the rest. *)
Fixpoint read_digits (acc : Z) (count : nat) (s : string) : Z * nat * string :=
  match s with
  | String c s' =>
      match digit_of c with
      | Some d => read_digits (10 * acc + d) (S count) s'
      | None => (acc, count, s)
      end
  | EmptyString => (acc, count, s)
  end.

(** The value of an ExponentPart at the head of [s], 0 when there is none
    (an [e] that no digit follows is not part of the literal). *)
Definition read_exponent (s : string) : Z :=
  match s with
  | String c s' =>
      if Ascii.eqb c "e" || Ascii.eqb c "E" then
        let '(sign, s'') :=
          match s' with
          | String "+" r => (1%Z, r)
          | String "-" r => ((-1)%Z, r)
          | _ => (1%Z, s')
          end in
        let '(e, n, _) := read_digits 0 0 s'' in
        if (n =? 0)%nat then 0%Z else (sign * e)%Z
      else 0%Z
  | EmptyString => 0%Z
  end.

(** The Number value of the decimal literal [m * 10 ^ e]. *)
Definition decimal (m e : Z) : JSNum := round64 (inject_Z m * 10 ^ e).

(** The longest prefix of [s] that is a StrUnsignedDecimalLiteral. *)
Definition read_unsigned (s : string) : JSNum :=
  if String.prefix "Infinity" s then PosInf
  else
    let '(i, ni, r1) := read_digits 0 0 s in
    match r1 with
    | String "." r2 =>
        let '(m, nf, r3) := read_digits i 0 r2 in
        if (ni =? 0)%nat && (nf =? 0)%nat then NaN
        else decimal m (read_exponent r3 - Z.of_nat nf)
    | _ => if (ni =? 0)%nat then NaN else decimal i (read_exponent r1)
    end.

Definition parseFloat_string (s : string) : JSNum :=
  match trim_start s with
  | String "+" r => read_unsigned r
  | String "-" r => num_neg (read_unsigned r)
  | t => read_unsigned t
  end.

Definition parseFloat `{Platform} (v : JSValue) : JSNum :=
  parseFloat_string (ToString v).

(** *** [Date] *)

(** [TimeClip]: a time value is an integral number of milliseconds within
    8.64e15 of the epoch. *)
Definition TimeClip (n : JSNum) : option Z :=
  match n with
  | Fin q =>
      let t := Z.quot (Qnum q) (Zpos (Qden q)) in
      if (Z.abs t <=? 8640000000000000)%Z then Some t else None
  | _ => None
  end.

(** [new Date(value)] for a primitive [value]. *)
Definition new_Date `{Platform} (value : JSValue) : option Z :=
  match value with
  | JSString s => Date_parse s
  | _ => TimeClip (ToNumber_prim value)
  end.

(** A [Date] used as a number. *)
Definition Date_valueOf (d : option Z) : JSNum :=
  match d with
  | Some t => Fin (inject_Z t)
  | None => NaN
  end.

Definition Date_toLocaleDateString `{Platform} (d : option Z) : string :=
  match d with
  | Some t => toLocaleDateString t
  | None => "Invalid Date"
  end.

(** *** [Array.prototype.sort] *)

(** ECMA-262 requires the sort to be stable and reads a NaN returned by the
    comparison function as +0.  With a consistent comparison function the
    result is determined; otherwise the order is left to the implementation,
    and this insertion sort is one such implementation. *)
Definition SortCompare {A} (comparefn : A -> A -> JSNum) (x y : A) : JSNum :=
  let v := comparefn x y in
  if isNaN v then Fin 0 else v.

Fixpoint sort_insert {A} (comparefn : A -> A -> JSNum) (x : A) (l : list A) : list A :=
  match l with
  | [] => [x]
  | y :: l' =>
      if num_gt (SortCompare comparefn x y) (Fin 0)
      then y :: sort_insert comparefn x l'
      else x :: l
  end.

Definition Array_sort {A} (comparefn : A -> A -> JSNum) (l : list A) : list A :=
  fold_right (sort_insert comparefn) [] l.

(** *** [Math.max], [Math.min], [Number.prototype.toFixed] *)

Fixpoint Math_max_from (highest : JSNum) (l : list JSNum) : JSNum :=
  match l with
  | [] => highest
  | n :: l' =>
      if isNaN n then NaN
      else Math_max_from (if num_gt n highest then n else highest) l'
  end.

(** [Math.max(...arr)]. *)
Definition Math_max (arr : list JSNum) : JSNum := Math_max_from NegInf arr.

Fixpoint Math_min_from (lowest : JSNum) (l : list JSNum) : JSNum :=
  match l with
  | [] => lowest
  | n :: l' =>
      if isNaN n then NaN
      else Math_min_from (if num_lt n lowest then n else lowest) l'
  end.

(** [Math.min(...arr)]. *)
Definition Math_min (arr : list JSNum) : JSNum := Math_min_from PosInf arr.

(** The integer [n] for which [n / 10 - x] is as close to zero as possible,
    the larger one when there are two ([x] is not negative). *)
Definition nearest_tenth (x : Q) : Z := Qfloor (x * 10 + (1 # 2)).

(** The digits of [n / 10] with one digit after the point. *)
Definition tenths_digits (n : Z) : string :=
  pretty (n / 10)%Z +:+ "." +:+ pretty (n mod 10)%Z.

(** [x.toFixed(1)]. *)
Definition toFixed1 `{Platform} (x : JSNum) : string :=
  match x with
  | Fin q =>
      let s := if Qlt_le_dec q 0 then "-" else "" in
      let a := Qabs q in
      s +:+ (if Qlt_le_dec a (10 ^ 21) then tenths_digits (nearest_tenth a)
             else Number_toString a)
  | _ => ToString (JSNumber x)
  end.


(** ** The normalizer: [processedData] *)

(** A raw record: the object PapaParse builds for one CSV row, from column
    name to cell value.  With dynamic typing a cell is a string, a number, a
    boolean or [null]; a column the row lacks reads as [undefined]. *)
Abbreviation RawRow := (gmap string JSValue).

(** [row.name]: a missing property reads as [undefined]. *)
Definition prop (row : RawRow) (name : string) : JSValue :=
  default JSUndefined (row !! name).

Record Reading : Type := {
  id : nat;
  date : option Z;
  dateStr : string;
  sugarLevel : JSNum;
  type : JSValue;
  time : JSValue;
  notes : JSValue;
  (** [None] until the labelling pass has set the property. *)
  displayDate : option string
}.

Section Normalizer.
Context `{Platform}.

(** The callback of the first [map]. *)
Definition normalize (index : nat) (row : RawRow) : Reading :=
  let date := new_Date (prop row "date") in
  {| id := index;
     date := date;
     dateStr := Date_toLocaleDateString date;
     sugarLevel :=
       (let n := parseFloat (prop row "sugarLevel") in
        if num_truthy n then n else Fin 0);
     type := js_or (prop row "type") (JSString "UNKNOWN");
     time := js_or (prop row "time") (JSString "");
     notes := js_or (prop row "notes") (JSString "");
     displayDate := None |}.

(** The callback of [filter]. *)
Definition valid_level (item : Reading) : bool :=
  negb (isNaN (sugarLevel item)) && num_gt (sugarLevel item) (Fin 0).

(** The comparison function of [sort]: [a.date - b.date]. *)
Definition by_date (a b : Reading) : JSNum :=
  num_sub (Date_valueOf (date a)) (Date_valueOf (date b)).

Definition processed (bloodSugarData : list RawRow) : list Reading :=
  Array_sort by_date (List.filter valid_level (imap normalize bloodSugarData)).

Definition set_displayDate (label : string) (item : Reading) : Reading :=
  {| id := id item; date := date item; dateStr := dateStr item;
     sugarLevel := sugarLevel item; type := type item; time := time item;
     notes := notes item; displayDate := Some label |}.

(** The label given to [item] when it is occurrence number [n] of its day. *)
Definition display_label (n : nat) (item : Reading) : string :=
  let baseDate := dateStr item in
  if (1 <? n)%nat then
    let timeStr :=
      if truthy (time item) then " (" +:+ ToString (time item) +:+ ")"
      else " #" +:+ pretty n in
    baseDate +:+ timeStr
  else baseDate.

(** The second [map], threading the object [dateCounts]. *)
Fixpoint label_pass (dateCounts : gmap string nat) (items : list Reading)
  : list Reading :=
  match items with
  | [] => []
  | item :: rest =>
      let baseDate := dateStr item in
      let n := (default 0%nat (dateCounts !! baseDate) + 1)%nat in
      set_displayDate (display_label n item) item
        :: label_pass (<[baseDate := n]> dateCounts) rest
  end.

Definition processedData (bloodSugarData : list RawRow) : list Reading :=
  match bloodSugarData with
  | [] => []
  | _ => label_pass ∅ (processed bloodSugarData)
  end.

(** ** The aggregator: [fastingData], [randomData], [stats] *)

Definition fastingData (bloodSugarData : list RawRow) : list Reading :=
  List.filter (fun d => strict_eq (type d) (JSString "FASTING"))
    (processedData bloodSugarData).

Definition randomData (bloodSugarData : list RawRow) : list Reading :=
  List.filter (fun d => strict_eq (type d) (JSString "RANDOM"))
    (processedData bloodSugarData).

Record Group : Type := {
  avg : JSValue;
  max : JSValue;
  min : JSValue;
  count : nat
}.

Record Stats : Type := {
  overall : Group;
  fasting : Group;
  random : Group
}.

Definition not_available : Group :=
  {| avg := JSString "N/A"; max := JSString "N/A"; min := JSString "N/A";
     count := 0 |}.

(** The local [avg]: [arr.reduce((a, b) => a + b, 0) / arr.length]. *)
Definition arr_avg (arr : list JSNum) : JSNum :=
  num_div (fold_left num_add arr (Fin 0))
          (Fin (inject_Z (Z.of_nat (length arr)))).

(** [arr.length ? v : 'N/A']. *)
Definition if_length (arr : list JSNum) (v : JSValue) : JSValue :=
  match arr with
  | [] => JSString "N/A"
  | _ => v
  end.

Definition stats (bloodSugarData : list RawRow) : Stats :=
  match processedData bloodSugarData with
  | [] =>
      {| overall := not_available; fasting := not_available;
         random := not_available |}
  | _ =>
      let allLevels := map sugarLevel (processedData bloodSugarData) in
      let fastingLevels := map sugarLevel (fastingData bloodSugarData) in
      let randomLevels := map sugarLevel (randomData bloodSugarData) in
      {| overall :=
           {| avg := JSString (toFixed1 (arr_avg allLevels));
              max := JSNumber (Math_max allLevels);
              min := JSNumber (Math_min allLevels);
              count := length allLevels |};
         fasting :=
           {| avg := if_length fastingLevels
                       (JSString (toFixed1 (arr_avg fastingLevels)));
              max := if_length fastingLevels (JSNumber (Math_max fastingLevels));
              min := if_length fastingLevels (JSNumber (Math_min fastingLevels));
              count := length fastingLevels |};
         random :=
           {| avg := if_length randomLevels
                       (JSString (toFixed1 (arr_avg randomLevels)));
              max := if_length randomLevels (JSNumber (Math_max randomLevels));
              min := if_length randomLevels (JSNumber (Math_min randomLevels));
              count := length randomLevels |} |}
  end.

End Normalizer.

(** ** A browser platform

    The part of the built-ins that ECMA-262 and the en-US locale data fix,
    over what they leave open: the offset [tz t] of local time from UTC at
    the instant [t] (milliseconds), the parsing [legacy_parse] of strings
    outside the date-only form, and the digits [other_digits] of the numbers
    that are not integers below 10^21. *)

Module Browser.

(** Days from 1970-01-01 to the day [d] of month [m] of year [y] of the
    proleptic Gregorian calendar. *)
Definition days_from_civil (y m d : Z) : Z :=
  let y' := if (m <=? 2)%Z then (y - 1)%Z else y in
  let era := (y' / 400)%Z in
  let yoe := (y' - era * 400)%Z in
  let mp := if (2 <? m)%Z then (m - 3)%Z else (m + 9)%Z in
  let doy := ((153 * mp + 2) / 5 + d - 1)%Z in
  let doe := (yoe * 365 + yoe / 4 - yoe / 100 + doy)%Z in
  (era * 146097 + doe - 719468)%Z.

(** Year, month and day of the day number [days]. *)
Definition civil_from_days (days : Z) : Z * Z * Z :=
  let z := (days + 719468)%Z in
  let era := (z / 146097)%Z in
  let doe := (z - era * 146097)%Z in
  let yoe := ((doe - doe / 1460 + doe / 36524 - doe / 146096) / 365)%Z in
  let doy := (doe - (365 * yoe + yoe / 4 - yoe / 100))%Z in
  let mp := ((5 * doy + 2) / 153)%Z in
  let d := (doy - (153 * mp + 2) / 5 + 1)%Z in
  let m := if (mp <? 10)%Z then (mp + 3)%Z else (mp - 9)%Z in
  ((if (m <=? 2)%Z then yoe + era * 400 + 1 else yoe + era * 400)%Z, m, d).

Definition msPerDay : Z := 86400000.

Definition month_short (m : Z) : string :=
  match m with
  | 1 => "Jan" | 2 => "Feb" | 3 => "Mar" | 4 => "Apr" | 5 => "May"
  | 6 => "Jun" | 7 => "Jul" | 8 => "Aug" | 9 => "Sep" | 10 => "Oct"
  | 11 => "Nov" | _ => "Dec"
  end%Z.

Fixpoint all_digits (s : string) : bool :=
  match s with
  | String c s' => bool_decide (is_Some (digit_of c)) && all_digits s'
  | EmptyString => true
  end.

Definition numeral (s : string) : Z := fst (fst (read_digits 0 0 s)).

(** [YYYY-MM-DD] naming a day of the calendar: midnight UTC of that day. *)
Definition parse_date_only (s : string) : option Z :=
  let y := substring 0 4 s in
  let m := substring 5 2 s in
  let d := substring 8 2 s in
  if (String.length s =? 10)%nat
     && String.eqb (substring 4 1 s) "-" && String.eqb (substring 7 1 s) "-"
     && all_digits y && all_digits m && all_digits d
  then
    let days := days_from_civil (numeral y) (numeral m) (numeral d) in
    if bool_decide (civil_from_days days = (numeral y, numeral m, numeral d))
    then Some (days * msPerDay)%Z
    else None
  else None.

Section Instance.
Variable tz : Z -> Z.
Variable legacy_parse : string -> option Z.
Variable other_digits : Q -> string.

Definition parse (s : string) : option Z :=
  match parse_date_only s with
  | Some t => Some t
  | None => legacy_parse s
  end.

Definition month_day (t : Z) : string :=
  let '(_, m, d) := civil_from_days ((t + tz t) / msPerDay) in
  month_short m +:+ " " +:+ pretty d.

Definition number_digits (q : Q) : string :=
  let r := Qred q in
  if Pos.eqb (Qden r) 1 && (Z.abs (Qnum r) <? 10 ^ 21)%Z
  then pretty (Qnum r)
  else other_digits q.

Definition platform : Platform :=
  {| Date_parse := parse;
     Number_toString := number_digits;
     toLocaleDateString := month_day |}.

End Instance.
End Browser.

(** ** The loader: [loadCSVData] *)

(** A settled promise. *)
Inductive Settled (A : Type) : Type :=
| Fulfilled (value : A)
| Rejected (message : string).
Arguments Fulfilled {A} value.
Arguments Rejected {A} message.

Record Response : Type := {
  ok : bool;
  status : nat;
  statusText : string;
  text : Settled string
}.

(** What the loader reads from its surroundings: the configured sheet
    identifier ([None] when the variable is not defined) and the network. *)
Record Env : Type := {
  VITE_GOOGLE_SHEET_ID : option string;
  fetch : string -> Settled Response
}.

(** An awaited computation: the URLs requested, in order, and how it
    settled; a rejection carries the [message] of the error thrown. *)
Definition Async (A : Type) : Type := (list string * Settled A)%type.

Global Instance Async_ret : MRet Async := fun A a => ([], Fulfilled a).

Global Instance Async_bind : MBind Async := fun A B k m =>
  match m with
  | (urls, Fulfilled a) => let '(urls', r) := k a in ((urls ++ urls')%list, r)
  | (urls, Rejected message) => (urls, Rejected message)
  end.

Definition throw {A} (message : string) : Async A := ([], Rejected message).

Definition await_fetch (env : Env) (url : string) : Async Response :=
  ([url], fetch env url).

Definition await_text (response : Response) : Async string :=
  ([], text response).

Fixpoint trim_end (s : string) : string :=
  match s with
  | EmptyString => EmptyString
  | String c s' =>
      match trim_end s' with
      | EmptyString => if is_whitespace c then EmptyString else String c EmptyString
      | t => String c t
      end
  end.

(** [s.trim()]. *)
Definition trim (s : string) : string := trim_end (trim_start s).

Definition LOCAL_CSV_URL : string := "/data/bloodsugar-data.csv".

Definition GOOGLE_SHEET_URL (GOOGLE_SHEET_ID : option string) : string :=
  "https://docs.google.com/spreadsheets/d/"
  +:+ default "undefined" GOOGLE_SHEET_ID +:+ "/export?format=csv&gid=0".

(** [GOOGLE_SHEET_ID && GOOGLE_SHEET_ID.trim() !== ''] as a condition. *)
Definition sheet_configured (GOOGLE_SHEET_ID : option string) : bool :=
  match GOOGLE_SHEET_ID with
  | None => false
  | Some s => negb (String.eqb s "") && negb (String.eqb (trim s) "")
  end.

(** The body of the [try] block up to the call of [parseCSV]: the CSV text
    and the name of its source. *)
Definition load_text (env : Env) : Async (string * string) :=
  let GOOGLE_SHEET_ID := VITE_GOOGLE_SHEET_ID env in
  let csvUrl :=
    if sheet_configured GOOGLE_SHEET_ID
    then GOOGLE_SHEET_URL GOOGLE_SHEET_ID
    else LOCAL_CSV_URL in
  response ← await_fetch env csvUrl;
  if negb (ok response) then
    if String.eqb csvUrl (GOOGLE_SHEET_URL GOOGLE_SHEET_ID) then
      fallbackResponse ← await_fetch env LOCAL_CSV_URL;
      if negb (ok fallbackResponse) then
        throw "Failed to load CSV file from both Google Sheets and local source. Check console for details."
      else
        csvData ← await_text fallbackResponse;
        mret (csvData, "local file")
    else
      throw ("Failed to load local CSV file: " +:+ pretty (status response)
             +:+ " " +:+ statusText response)
  else
    csvData ← await_text response;
    mret (csvData,
          if String.eqb csvUrl (GOOGLE_SHEET_URL GOOGLE_SHEET_ID)
          then "Google Sheets" else "local file").

(** Where one run of the loader leaves the component. *)
Inductive LoadState : Type :=
| Parsing (csvData source : string)  (** [parseCSV(csvData, source)] is called *)
| LoadError (error : string).        (** [setError(error); setLoading(false)] *)

Definition loadCSVData (env : Env) : list string * LoadState :=
  match load_text env with
  | (urls, Fulfilled (csvData, source)) => (urls, Parsing csvData source)
  | (urls, Rejected message) =>
      (urls, LoadError ("Error loading CSV file: " +:+ message))
  end.

(** ** Vocabulary of the statements *)

(** [0 < n], for a number that is not NaN. *)
Definition positive (n : JSNum) : Prop :=
  match n with
  | Fin q => (0 < q)%Q
  | PosInf => True
  | _ => False
  end.

(** [n <= 0], for a number that is not NaN. *)
Definition non_positive (n : JSNum) : Prop :=
  match n with
  | Fin q => (q <= 0)%Q
  | NegInf => True
  | _ => False
  end.




(** [hi] is a member of [levels] that no member exceeds. *)
Definition greatest (hi : JSNum) (levels : list JSNum) : Prop :=
  In hi levels /\ forall x, In x levels -> num_gt x hi = false.

(** [lo] is a member of [levels] that exceeds no member. *)
Definition least (lo : JSNum) (levels : list JSNum) : Prop :=
  In lo levels /\ forall x, In x levels -> num_lt x lo = false.


(** [a] is ordered before [b]: both dates are valid, and [a] has the earlier
    date or the same date and the earlier row. *)
Definition before (a b : Reading) : Prop :=
  match date a, date b with
  | Some x, Some y => (x < y)%Z \/ (x = y /\ (id a < id b)%nat)
  | _, _ => False
  end.

(** No reading of [l] is followed, at any distance, by a reading of an
    earlier date. *)
Definition never_decreasing (l : list Reading) : Prop :=
  forall i j a b x y,
    (i < j)%nat -> l !! i = Some a -> l !! j = Some b ->
    date a = Some x -> date b = Some y -> (x <= y)%Z.

(** The number of readings of the day of [r] among the first [S i] readings
    of [l]: the occurrence number of [r] when it stands at position [i]. *)
Definition occurrence (l : list Reading) (i : nat) (r : Reading) : nat :=
  length (List.filter (fun x => String.eqb (dateStr x) (dateStr r))
            (take (S i) l)).

(** ** Inputs used in examples *)

Definition row_of (cells : list (string * JSValue)) : RawRow := list_to_map cells.

(** Three rows dated by numbers, the middle one with a level of zero. *)
Definition rows_late_first : list RawRow :=
  [ row_of [("date", JSNumber (Fin 2000)); ("sugarLevel", JSString "100")];
    row_of [("date", JSNumber (Fin 1500)); ("sugarLevel", JSString "0")];
    row_of [("date", JSNumber (Fin 1000)); ("sugarLevel", JSString "90")] ].

(** A browser whose local time stays [offset] milliseconds ahead of UTC and
    whose date parser accepts the date-only form alone; the digits of
    non-integral numbers are not consulted on the inputs below. *)
Definition fixed_offset (offset : Z) : Platform :=
  Browser.platform (fun _ => offset) (fun _ => None) (fun _ => "").

(** The three rows of the scenario. *)
Definition scenario_rows : list RawRow :=
  [ row_of [("date", JSString "2024-01-01"); ("sugarLevel", JSNumber (Fin 95));
            ("type", JSString "FASTING")];
    row_of [("date", JSString "2024-01-01"); ("sugarLevel", JSNumber (Fin 150));
            ("type", JSString "RANDOM"); ("time", JSString "14:00")];
    row_of [("date", JSString "2024-01-02"); ("sugarLevel", JSNumber (Fin 0));
            ("type", JSString "FASTING")] ].

(** Midnight UTC of 2024-01-01. *)
Definition jan_1_2024 : Z := 1704067200000.

(** Three readings of one day, the second and the third at the same time. *)
Definition rows_same_time : list RawRow :=
  [ row_of [("date", JSString "2024-01-01"); ("sugarLevel", JSNumber (Fin 95));
            ("type", JSString "FASTING"); ("time", JSString "08:00")];
    row_of [("date", JSString "2024-01-01"); ("sugarLevel", JSNumber (Fin 150));
            ("type", JSString "RANDOM"); ("time", JSString "14:00")];
    row_of [("date", JSString "2024-01-01"); ("sugarLevel", JSNumber (Fin 160));
            ("type", JSString "RANDOM"); ("time", JSString "14:00")] ].

(** A row without a date between two dated rows, the later date first. *)
Definition rows_undated_between : list RawRow :=
  [ row_of [("date", JSString "2024-01-02"); ("sugarLevel", JSNumber (Fin 110))];
    row_of [("sugarLevel", JSNumber (Fin 120))];
    row_of [("date", JSString "2024-01-01"); ("sugarLevel", JSNumber (Fin 95))] ].



(** A sheet is configured and every request is rejected. *)
Definition env_all_rejected : Env :=
  {| VITE_GOOGLE_SHEET_ID := Some "sheet1";
     fetch := fun _ => Rejected "Failed to fetch" |}.

(** What the scenario expects of its first two rows and of the statistics. *)
Definition scenario_first : Reading :=
  {| id := 0; date := Some jan_1_2024; dateStr := "Jan 1";
     sugarLevel := Fin 95; type := JSString "FASTING"; time := JSString "";
     notes := JSString ""; displayDate := Some "Jan 1" |}.

Definition scenario_second : Reading :=
  {| id := 1; date := Some jan_1_2024; dateStr := "Jan 1";
     sugarLevel := Fin 150; type := JSString "RANDOM";
     time := JSString "14:00"; notes := JSString "";
     displayDate := Some "Jan 1 (14:00)" |}.

Definition scenario_stats : Stats :=
  {| overall := {| avg := JSString "122.5"; max := JSNumber (Fin 150);
                   min := JSNumber (Fin 95); count := 2 |};
     fasting := {| avg := JSString "95.0"; max := JSNumber (Fin 95);
                   min := JSNumber (Fin 95); count := 1 |};
     random := {| avg := JSString "150.0"; max := JSNumber (Fin 150);
                  min := JSNumber (Fin 150); count := 1 |} |}.

(** ** After the request: [parseCSV], the component state, the view *)

(** A row as PapaParse hands it to [complete]: its own properties in the
    order of [Object.keys].  The [__parsed_extra] array of an over-long line
    is not represented; no code reads it. *)
Abbreviation PapaRow := (list (string * JSValue)).

(** The callback of [results.data.map]: every cell is copied under the
    trimmed name of its column.  Assigning a cell to the name [__proto__] of
    an object literal creates no property. *)
Definition clean_row (row : PapaRow) : RawRow :=
  fold_left
    (fun cleanedRow '(key, value) =>
       let cleanKey := trim key in
       if String.eqb cleanKey "__proto__" then cleanedRow
       else <[cleanKey := value]> cleanedRow)
    row ∅.

Record PapaResults : Type := {
  data : list PapaRow;
  errors : list string
}.

(** Which of the two callbacks given to [Papa.parse] is called, and with
    what. *)
Inductive PapaOutcome : Type :=
| Complete (results : PapaResults)
| Failed (message : string).

(** The state of the component; [error] is [None] for [null]. *)
Record State : Type := {
  selectedView : string;
  bloodSugarData : list RawRow;
  loading : bool;
  error : option string
}.

Definition initial_state : State :=
  {| selectedView := "line"; bloodSugarData := []; loading := true;
     error := None |}.

Definition setSelectedView (v : string) (s : State) : State :=
  {| selectedView := v; bloodSugarData := bloodSugarData s;
     loading := loading s; error := error s |}.

Definition setBloodSugarData (d : list RawRow) (s : State) : State :=
  {| selectedView := selectedView s; bloodSugarData := d;
     loading := loading s; error := error s |}.

Definition setLoading (b : bool) (s : State) : State :=
  {| selectedView := selectedView s; bloodSugarData := bloodSugarData s;
     loading := b; error := error s |}.

Definition setError (e : string) (s : State) : State :=
  {| selectedView := selectedView s; bloodSugarData := bloodSugarData s;
     loading := loading s; error := Some e |}.

(** [parseCSV(csvData, source)], with [Papa.parse] as [parse]. *)
Definition parseCSV (parse : string -> PapaOutcome) (csvData source : string)
    (s : State) : State :=
  match parse csvData with
  | Complete results =>
      let cleanedData := map clean_row (data results) in
      setLoading false (setBloodSugarData cleanedData s)
  | Failed message =>
      setLoading false
        (setError ("Error parsing CSV from " +:+ source +:+ ": " +:+ message) s)
  end.

(** One run of [loadCSVData] on the state. *)
Definition run_loadCSVData (env : Env) (parse : string -> PapaOutcome)
    (s : State) : State :=
  let s := setLoading true s in
  match snd (loadCSVData env) with
  | Parsing csvData source => parseCSV parse csvData source s
  | LoadError message => setLoading false (setError message s)
  end.

(** The state once the effect run on mount has settled. *)
Definition mounted (env : Env) (parse : string -> PapaOutcome) : State :=
  run_loadCSVData env parse initial_state.

Inductive ChartKind : Type := LineChart | BarChart.

(** What the component returns, by the branch taken. *)
Inductive View : Type :=
| LoadingView
| ErrorView (message : string)
| NoDataView
| Dashboard (readings : list Reading) (statistics : Stats) (chart : ChartKind)
            (fastingReadings randomReadings : list Reading).

(** [if (error)]: [null] and the empty string are falsy. *)
Definition error_shown (s : State) : option string :=
  match error s with
  | Some e => if String.eqb e "" then None else Some e
  | None => None
  end.

Definition render `{Platform} (s : State) : View :=
  if loading s then LoadingView
  else
    match error_shown s with
    | Some e => ErrorView e
    | None =>
        match processedData (bloodSugarData s) with
        | [] => NoDataView
        | _ =>
            Dashboard (processedData (bloodSugarData s))
              (stats (bloodSugarData s))
              (if String.eqb (selectedView s) "line" then LineChart else BarChart)
              (fastingData (bloodSugarData s))
              (randomData (bloodSugarData s))
        end
    end.

(** ** Vocabulary of the further statements *)

(** The loader is run with the same network and no sheet configured. *)
Definition without_sheet (env : Env) : Env :=
  {| VITE_GOOGLE_SHEET_ID := None; fetch := fetch env |}.

(** Two raw records agree on the five columns the normalizer reads. *)
Definition same_cells (r1 r2 : RawRow) : Prop :=
  prop r1 "date" = prop r2 "date"
  /\ prop r1 "sugarLevel" = prop r2 "sugarLevel"
  /\ prop r1 "type" = prop r2 "type"
  /\ prop r1 "time" = prop r2 "time"
  /\ prop r1 "notes" = prop r2 "notes".

(** [x <= y] for numbers that are not NaN. *)
Definition num_le (x y : JSNum) : Prop := num_gt x y = false.

(** The cell of the last column of [row] whose trimmed name is [name]. *)
Definition last_cell (name : string) (row : PapaRow) : option JSValue :=
  snd <$> last (List.filter (fun kv => String.eqb (trim (fst kv)) name) row).

(** [s] has no character other than white space. *)
Definition blank (s : string) : Prop :=
  forall c, In c (list_ascii_of_string s) -> is_whitespace c = true.

(** Two parsed lines give the same cells for the five columns the
    normalizer reads, whatever the padding of their headers. *)
Definition same_columns (r1 r2 : PapaRow) : Prop :=
  forall name,
    In name ["date"; "sugarLevel"; "type"; "time"; "notes"] ->
    last_cell name r1 = last_cell name r2.

(** ** Further inputs used in examples *)

Definition ok_response (body : string) : Response :=
  {| ok := true; status := 200; statusText := "OK"; text := Fulfilled body |}.

Definition not_found : Response :=
  {| ok := false; status := 404; statusText := "Not Found";
     text := Fulfilled "" |}.

(** The sheet answers 404 and the local file is served. *)
Definition env_sheet_404 : Env :=
  {| VITE_GOOGLE_SHEET_ID := Some "sheet1";
     fetch := fun url =>
       if String.eqb url LOCAL_CSV_URL
       then Fulfilled (ok_response "date,sugarLevel")
       else Fulfilled not_found |}.

(** A sheet identifier of white space only. *)
Definition env_blank_sheet : Env :=
  {| VITE_GOOGLE_SHEET_ID := Some "  ";
     fetch := fun _ => Fulfilled (ok_response "date,sugarLevel") |}.

(** A parsed line whose headers carry padding. *)
Definition padded_row : PapaRow :=
  [ (" date", JSString "2024-01-01"); ("sugarLevel ", JSNumber (Fin 95));
    (" type ", JSString "FASTING") ].

(** [scenario_rows] with a column the normalizer does not read. *)
Definition scenario_rows_extra : list RawRow :=
  map (fun row => <["device" := JSString "meter-7"]> row) scenario_rows.


(** A settled component whose only row has a level of zero. *)
Definition zero_level_state : State :=
  {| selectedView := "line";
     bloodSugarData :=
       [ row_of [("date", JSString "2024-01-02");
                 ("sugarLevel", JSNumber (Fin 0))] ];
     loading := false; error := None |}.

(** The second and the third reading of [rows_same_time]. *)
Definition same_time_second : Reading :=
  {| id := 1; date := Some jan_1_2024; dateStr := "Jan 1";
     sugarLevel := Fin 150; type := JSString "RANDOM";
     time := JSString "14:00"; notes := JSString "";
     displayDate := Some "Jan 1 (14:00)" |}.

Definition same_time_third : Reading :=
  {| id := 2; date := Some jan_1_2024; dateStr := "Jan 1";
     sugarLevel := Fin 160; type := JSString "RANDOM";
     time := JSString "14:00"; notes := JSString "";
     displayDate := Some "Jan 1 (14:00)" |}.

(** Two random readings on the same day after a fasting one on the next. *)
Definition rows_two_random : list RawRow :=
  [ row_of [("date", JSString "2024-01-02"); ("sugarLevel", JSNumber (Fin 101));
            ("type", JSString "FASTING")];
    row_of [("date", JSString "2024-01-01"); ("sugarLevel", JSNumber (Fin 150));
            ("type", JSString "RANDOM")];
    row_of [("date", JSString "2024-01-01"); ("sugarLevel", JSNumber (Fin 160));
            ("type", JSString "RANDOM")] ].

(** [padded_row] without the padding. *)
Definition unpadded_row : PapaRow :=
  [ ("date", JSString "2024-01-01"); ("sugarLevel", JSNumber (Fin 95));
    ("type", JSString "FASTING") ].

(** * Properties *)

Section parse_demo.
Example parseFloat_demo1 : parseFloat_string "  95.5abc" = Fin (191 # 2).
Proof. vm_compute. reflexivity. Qed.
Example parseFloat_demo2 : parseFloat_string "-.5e1x" = Fin (-5 # 1).
Proof. vm_compute. reflexivity. Qed.
Example parseFloat_demo3 : parseFloat_string "abc" = NaN.
Proof. reflexivity. Qed.
Example parseFloat_demo4 : parseFloat_string "1.e" = Fin 1.
Proof. vm_compute. reflexivity. Qed.
Example parseFloat_underflow : parseFloat_string "1e-400" = Fin 0.
Proof. vm_compute. reflexivity. Qed.

Example parseFloat_overflow : parseFloat_string "1e400" = PosInf.
Proof. vm_compute. reflexivity. Qed.

Example parseFloat_demo5 :
  parseFloat_string "12e-1" = Fin (5404319552844595 # 4503599627370496).
Proof. vm_compute. reflexivity. Qed.
Example parseFloat_demo6 : parseFloat_string "." = NaN.
Proof. reflexivity. Qed.
End parse_demo.

(** ** Order on JavaScript numbers *)

Lemma num_gt_zero_positive n : num_gt n (Fin 0) = true <-> positive n.
Proof.
  destruct n as [| |q|]; simpl; try (split; [discriminate || done | done]).
  destruct (Qlt_le_dec 0 q) as [Hq|Hq]; split; auto; try discriminate.
  intros Hp. exfalso. apply (Qlt_irrefl q). eapply Qle_lt_trans; eauto.
Qed.

Lemma positive_not_NaN n : positive n -> isNaN n = false.
Proof. destruct n; simpl; tauto. Qed.

Lemma positive_or_not n : n = NaN \/ non_positive n \/ positive n.
Proof.
  destruct n as [| |q|]; simpl; auto.
  destruct (Qlt_le_dec 0 q); auto.
Qed.

Lemma non_positive_not_positive n : n = NaN \/ non_positive n -> ~ positive n.
Proof.
  intros [->|Hn]; [simpl; tauto|].
  destruct n as [| |q|]; simpl in *; try tauto.
  intros Hq. apply (Qlt_irrefl q). eapply Qle_lt_trans; eauto.
Qed.

Lemma positive_truthy n : positive n -> num_truthy n = true.
Proof.
  destruct n as [| |q|]; simpl; try tauto.
  intros Hq. unfold Qis_zero. destruct (Qeq_bool q 0) eqn:E; [|done].
  apply Qeq_bool_eq in E. rewrite E in Hq. by apply Qlt_irrefl in Hq.
Qed.

(** ** The shape of the normalized collection *)

Section Pipeline.
Context `{Platform}.

Lemma valid_level_positive item :
  valid_level item = true <-> positive (sugarLevel item).
Proof.
  unfold valid_level. rewrite andb_true_iff, num_gt_zero_positive.
  split; [tauto|]. intros Hp. split; [|done].
  by rewrite (positive_not_NaN _ Hp).
Qed.

Lemma sugarLevel_normalize i row :
  positive (sugarLevel (normalize i row))
  <-> positive (parseFloat (prop row "sugarLevel")).
Proof.
  simpl. destruct (num_truthy _) eqn:E; [done|].
  split; [simpl; intros Hq; by apply Qlt_irrefl in Hq|].
  intros Hp. apply positive_truthy in Hp. congruence.
Qed.

Lemma sugarLevel_normalize_eq i row :
  positive (parseFloat (prop row "sugarLevel")) ->
  sugarLevel (normalize i row) = parseFloat (prop row "sugarLevel").
Proof. intros Hp. simpl. by rewrite (positive_truthy _ Hp). Qed.

Lemma sort_insert_perm {A} (cmp : A -> A -> JSNum) x l :
  Permutation (x :: l) (sort_insert cmp x l).
Proof.
  induction l as [|y l IH]; simpl; [done|].
  destruct (num_gt _ _); [|done].
  rewrite perm_swap. by constructor.
Qed.

Lemma Array_sort_perm {A} (cmp : A -> A -> JSNum) l :
  Permutation l (Array_sort cmp l).
Proof.
  induction l as [|x l IH]; simpl; [done|].
  rewrite <- sort_insert_perm. by constructor.
Qed.

Lemma processedData_eq rows :
  processedData rows = label_pass ∅ (processed rows).
Proof. by destruct rows. Qed.

Lemma In_processed rows r :
  In r (processed rows) <->
  exists row, rows !! id r = Some row /\ r = normalize (id r) row
              /\ positive (parseFloat (prop row "sugarLevel")).
Proof.
  unfold processed.
  rewrite <- (Permutation_in' (eq_refl r) (Array_sort_perm by_date _)).
  rewrite filter_In, valid_level_positive, <- list_elem_of_In.
  rewrite elem_of_lookup_imap. split.
  - intros [(i & row & -> & Hrow) Hp]. exists row. simpl.
    split; [done|]. split; [done|]. by apply sugarLevel_normalize in Hp.
  - intros (row & Hrow & Hr & Hp). split; [by eauto|].
    rewrite Hr. by apply sugarLevel_normalize.
Qed.

Lemma label_pass_length m l : length (label_pass m l) = length l.
Proof. revert m. induction l; intros; simpl; auto. Qed.

Lemma label_pass_lookup m l i r :
  label_pass m l !! i = Some r ->
  exists r0 n, l !! i = Some r0 /\ r = set_displayDate (display_label n r0) r0.
Proof.
  revert m i. induction l as [|x l IH]; intros m i; simpl; [done|].
  destruct i as [|i]; simpl.
  - intros [= <-]. eauto.
  - apply IH.
Qed.

Lemma lookup_label_pass m l i r0 :
  l !! i = Some r0 ->
  exists n, label_pass m l !! i = Some (set_displayDate (display_label n r0) r0).
Proof.
  revert m i. induction l as [|x l IH]; intros m i; simpl; [done|].
  destruct i as [|i]; simpl.
  - intros [= <-]. eauto.
  - apply IH.
Qed.

Lemma In_label_pass m l r :
  In r (label_pass m l) ->
  exists r0 n, In r0 l /\ r = set_displayDate (display_label n r0) r0.
Proof.
  rewrite <- list_elem_of_In, list_elem_of_lookup.
  intros [i Hi]. apply label_pass_lookup in Hi as (r0 & n & Hr0 & ->).
  exists r0, n. split; [|done].
  apply list_elem_of_In, list_elem_of_lookup; eauto.
Qed.

Lemma label_pass_In m l r0 :
  In r0 l ->
  exists n, In (set_displayDate (display_label n r0) r0) (label_pass m l).
Proof.
  rewrite <- list_elem_of_In, list_elem_of_lookup.
  intros [i Hi]. destruct (lookup_label_pass m l i r0 Hi) as [n Hn].
  exists n. apply list_elem_of_In, list_elem_of_lookup; eauto.
Qed.

(** Every normalized reading is the image of the row at position [id], which
    has a positive level, with a label added. *)
Lemma In_processedData rows r :
  In r (processedData rows) ->
  exists row label,
    rows !! id r = Some row
    /\ positive (parseFloat (prop row "sugarLevel"))
    /\ r = set_displayDate label (normalize (id r) row).
Proof.
  rewrite processedData_eq. intros Hr.
  apply In_label_pass in Hr as (r0 & n & Hr0 & ->).
  apply In_processed in Hr0 as (row & Hrow & Hr0 & Hp).
  exists row, (display_label n r0). simpl. by rewrite <- Hr0.
Qed.

Lemma processedData_In rows i row :
  rows !! i = Some row ->
  positive (parseFloat (prop row "sugarLevel")) ->
  exists label, In (set_displayDate label (normalize i row)) (processedData rows).
Proof.
  intros Hrow Hp. rewrite processedData_eq.
  assert (In (normalize i row) (processed rows)) as Hin.
  { apply In_processed. exists row. simpl. done. }
  apply (label_pass_In ∅) in Hin as [n Hn]. eauto.
Qed.

(** Every normalized reading has a level above zero. *)
Lemma processedData_positive rows r :
  In r (processedData rows) -> positive (sugarLevel r).
Proof.
  intros Hr.
  apply In_processedData in Hr as (row & label & Hrow & Hp & ->).
  by apply (sugarLevel_normalize (id r)) in Hp.
Qed.

(** C5: a raw record whose [sugarLevel] does not parse as a number, or parses
    to a value that is not above zero, has no reading in the normalized
    collection; every reading of the collection has a level above zero and
    different from NaN. *)
Theorem non_positive_levels_excluded (rows : list RawRow) :
  (forall i row,
      rows !! i = Some row ->
      parseFloat (prop row "sugarLevel") = NaN
      \/ non_positive (parseFloat (prop row "sugarLevel")) ->
      forall r, In r (processedData rows) -> id r <> i)
  /\ (forall r, In r (processedData rows) ->
        num_gt (sugarLevel r) (Fin 0) = true /\ isNaN (sugarLevel r) = false).
Proof.
  split.
  - intros i row Hrow Hbad r Hr <-.
    apply In_processedData in Hr as (row' & label & Hrow' & Hp & _).
    rewrite Hrow in Hrow'. injection Hrow' as <-.
    by apply non_positive_not_positive in Hbad.
  - intros r Hr. apply processedData_positive in Hr.
    split; [by apply num_gt_zero_positive | by apply positive_not_NaN].
Qed.

(** C8: the date plays no part in the filter.  A raw record is dropped
    exactly when its level is not a positive number; in particular a record
    whose date does not parse and whose level parses to a positive number has
    a reading in the normalized collection, and that reading carries the
    Invalid Date. *)
Theorem invalid_date_retained (rows : list RawRow) (i : nat) (row : RawRow) :
  rows !! i = Some row ->
  (positive (parseFloat (prop row "sugarLevel")) <->
   exists r, In r (processedData rows) /\ id r = i)
  /\ (new_Date (prop row "date") = None ->
      positive (parseFloat (prop row "sugarLevel")) ->
      exists r, In r (processedData rows) /\ id r = i /\ date r = None
                /\ sugarLevel r = parseFloat (prop row "sugarLevel")).
Proof.
  intros Hrow.
  assert (positive (parseFloat (prop row "sugarLevel")) ->
          exists r, In r (processedData rows) /\ id r = i
                /\ date r = new_Date (prop row "date")
                /\ sugarLevel r = parseFloat (prop row "sugarLevel")) as Hkeep.
  { intros Hp. destruct (processedData_In rows i row Hrow Hp) as [label Hin].
    eexists. split; [exact Hin|]. simpl. split; [done|]. split; [done|].
    by rewrite (positive_truthy _ Hp). }
  split; [split|].
  - intros Hp. destruct (Hkeep Hp) as (r & Hr & Hid & _). eauto.
  - intros (r & Hr & <-).
    apply In_processedData in Hr as (row' & label & Hrow' & Hp & _).
    rewrite Hrow in Hrow'. by injection Hrow' as <-.
  - intros Hdate Hp. destruct (Hkeep Hp) as (r & Hr & Hid & Hd & Hs).
    exists r. rewrite <- Hdate. done.
Qed.

Lemma map_id_label_pass m l : map id (label_pass m l) = map id l.
Proof. revert m. induction l as [|x l IH]; intros m; simpl; [done|]. by rewrite IH. Qed.

(** C9: the [id] of a normalized reading is the position, counted from 0, of
    its row in the raw input, and the reading is built from that row; the
    ids of a collection can skip positions and run backwards, as they do on
    [rows_late_first]. *)
Theorem id_is_row_position :
  (forall (rows : list RawRow) (r : Reading),
      In r (processedData rows) ->
      exists row label,
        rows !! id r = Some row
        /\ r = set_displayDate label (normalize (id r) row))
  /\ map id (processedData rows_late_first) = [2; 0]%nat.
Proof.
  split.
  - intros rows r Hr.
    apply In_processedData in Hr as (row & label & Hrow & _ & Hr). eauto.
  - rewrite processedData_eq, map_id_label_pass. vm_compute. reflexivity.
Qed.

(** ** Partitions and counts *)

Lemma strict_eq_string v s : strict_eq v (JSString s) = true <-> v = JSString s.
Proof.
  destruct v as [| | |n|s']; simpl; try (split; discriminate).
  - destruct n; split; discriminate.
  - rewrite String.eqb_eq. split; congruence.
Qed.

Lemma In_fastingData rows r :
  In r (fastingData rows) <->
  In r (processedData rows) /\ type r = JSString "FASTING".
Proof. unfold fastingData. by rewrite filter_In, strict_eq_string. Qed.

Lemma In_randomData rows r :
  In r (randomData rows) <->
  In r (processedData rows) /\ type r = JSString "RANDOM".
Proof. unfold randomData. by rewrite filter_In, strict_eq_string. Qed.

Lemma stats_nonempty rows :
  processedData rows <> [] ->
  stats rows =
    let allLevels := map sugarLevel (processedData rows) in
    let fastingLevels := map sugarLevel (fastingData rows) in
    let randomLevels := map sugarLevel (randomData rows) in
    {| overall :=
         {| avg := JSString (toFixed1 (arr_avg allLevels));
            max := JSNumber (Math_max allLevels);
            min := JSNumber (Math_min allLevels);
            count := length allLevels |};
       fasting :=
         {| avg := if_length fastingLevels
                     (JSString (toFixed1 (arr_avg fastingLevels)));
            max := if_length fastingLevels (JSNumber (Math_max fastingLevels));
            min := if_length fastingLevels (JSNumber (Math_min fastingLevels));
            count := length fastingLevels |};
       random :=
         {| avg := if_length randomLevels
                     (JSString (toFixed1 (arr_avg randomLevels)));
            max := if_length randomLevels (JSNumber (Math_max randomLevels));
            min := if_length randomLevels (JSNumber (Math_min randomLevels));
            count := length randomLevels |} |}.
Proof. unfold stats. by destruct (processedData rows). Qed.

Lemma stats_empty rows :
  processedData rows = [] ->
  stats rows = {| overall := not_available; fasting := not_available;
                  random := not_available |}.
Proof. unfold stats. by intros ->. Qed.

Lemma stats_counts rows :
  count (overall (stats rows)) = length (processedData rows)
  /\ count (fasting (stats rows)) = length (fastingData rows)
  /\ count (random (stats rows)) = length (randomData rows).
Proof.
  destruct (processedData rows) as [|r l] eqn:E.
  - rewrite (stats_empty _ E). unfold fastingData, randomData. by rewrite E.
  - rewrite stats_nonempty by (by rewrite E). simpl.
    by rewrite !length_map, E.
Qed.

(** C6: a reading typed exactly ['FASTING'] is in the fasting partition and
    not in the random one; a reading typed exactly ['RANDOM'] is in the
    random partition and not in the fasting one; a reading of any other type
    is in neither.  In every case the overall group is computed over the
    levels of all readings, this one included. *)
Theorem partition_by_type (rows : list RawRow) (r : Reading) :
  In r (processedData rows) ->
  (type r = JSString "FASTING" ->
     In r (fastingData rows) /\ ~ In r (randomData rows))
  /\ (type r = JSString "RANDOM" ->
     In r (randomData rows) /\ ~ In r (fastingData rows))
  /\ (type r <> JSString "FASTING" -> type r <> JSString "RANDOM" ->
     ~ In r (fastingData rows) /\ ~ In r (randomData rows))
  /\ In (sugarLevel r) (map sugarLevel (processedData rows))
  /\ overall (stats rows) =
       {| avg := JSString (toFixed1 (arr_avg (map sugarLevel (processedData rows))));
          max := JSNumber (Math_max (map sugarLevel (processedData rows)));
          min := JSNumber (Math_min (map sugarLevel (processedData rows)));
          count := length (processedData rows) |}.
Proof.
  intros Hr. rewrite !In_fastingData, !In_randomData.
  repeat split; try done; try (intros [_ ?]; congruence).
  - by apply in_map.
  - rewrite stats_nonempty by (by destruct (processedData rows)).
    simpl. by rewrite length_map.
Qed.

Lemma filter_pair_length {A} (f g : A -> bool) (l : list A) :
  (forall x, f x = true -> g x = true -> False) ->
  (length (List.filter f l) + length (List.filter g l) <= length l)%nat
  /\ ((length (List.filter f l) + length (List.filter g l))%nat = length l
      <-> forall x, In x l -> f x = true \/ g x = true).
Proof.
  intros Hfg. induction l as [|x l [IHle IHeq]]; simpl.
  - split; [lia|]. split; [tauto | done].
  - destruct (f x) eqn:Ef, (g x) eqn:Eg; simpl.
    + by destruct (Hfg x).
    + split; [lia|]. split.
      * intros Hlen y [<-|Hy]; [auto|]. apply IHeq; [lia | done].
      * intros Hall. f_equal. apply IHeq. auto.
    + split; [lia|]. split.
      * intros Hlen y [<-|Hy]; [auto|]. apply IHeq; [lia | done].
      * intros Hall. rewrite Nat.add_succ_r. f_equal. apply IHeq. auto.
    + split; [lia|]. split.
      * intros Hlen. lia.
      * intros Hall. destruct (Hall x); [auto | congruence | congruence].
Qed.

(** C10: the overall count is the size of the normalized collection; the
    fasting and random counts add up to at most the overall count, and to
    exactly the overall count when, and only when, every normalized reading
    is typed ['FASTING'] or ['RANDOM']. *)
Theorem counts_add_up (rows : list RawRow) :
  count (overall (stats rows)) = length (processedData rows)
  /\ (count (fasting (stats rows)) + count (random (stats rows))
      <= count (overall (stats rows)))%nat
  /\ ((count (fasting (stats rows)) + count (random (stats rows)))%nat
      = count (overall (stats rows))
      <-> forall r, In r (processedData rows) ->
            type r = JSString "FASTING" \/ type r = JSString "RANDOM").
Proof.
  destruct (stats_counts rows) as (-> & -> & ->).
  unfold fastingData, randomData.
  destruct (filter_pair_length
              (fun d => strict_eq (type d) (JSString "FASTING"))
              (fun d => strict_eq (type d) (JSString "RANDOM"))
              (processedData rows)) as [Hle Heq].
  { intros x Hf Hg. apply strict_eq_string in Hf, Hg. congruence. }
  split; [done|]. split; [done|].
  rewrite Heq. by setoid_rewrite strict_eq_string.
Qed.

(** ** Rounding to binary64 *)

Lemma Qabs_nonneg_eq (q : Q) : (0 <= q)%Q -> Qabs q = q.
Proof.
  destruct q as [n d]. unfold Qle, Qabs; simpl. intros Hn.
  f_equal. apply Z.abs_eq. lia.
Qed.

Lemma round_half_even_bounds x :
  (Qfloor x <= round_half_even x <= Qfloor x + 1)%Z.
Proof.
  unfold round_half_even.
  destruct (x - inject_Z (Qfloor x) ?= 1 # 2)%Q; [|lia|lia].
  destruct (Z.even (Qfloor x)); lia.
Qed.

Lemma round_half_even_ge (k : Z) x :
  (inject_Z k <= x)%Q -> (k <= round_half_even x)%Z.
Proof.
  intros Hx. pose proof (round_half_even_bounds x) as [Hlo _].
  pose proof (Qfloor_resp_le _ _ Hx) as Hk. rewrite Qfloor_Z in Hk. lia.
Qed.

Lemma two_power_pos (e : Z) : (0 < 2 ^ e)%Q.
Proof. apply Qpower_0_lt. reflexivity. Qed.

Lemma scaled_sign (m e : Z) :
  ((0 <= m)%Z -> (0 <= Qred (inject_Z m * 2 ^ e))%Q)
  /\ ((1 <= m)%Z -> (0 < Qred (inject_Z m * 2 ^ e))%Q).
Proof.
  pose proof (two_power_pos e) as He.
  split; intros Hm; rewrite Qred_correct.
  - apply Qmult_le_0_compat; [|lra].
    change 0%Q with (inject_Z 0). by rewrite <- Zle_Qle.
  - apply Qmult_lt_0_compat; [|lra].
    change 0%Q with (inject_Z 0). rewrite <- Zlt_Qlt. lia.
Qed.

(** Rounding keeps the sign, and infinity has the sign of what overflowed. *)
Lemma round64_sign q :
  match round64 q with
  | NaN => False
  | NegInf => (q < 0)%Q
  | Fin r => ((0 <= q)%Q -> (0 <= r)%Q) /\ ((q <= 0)%Q -> (r <= 0)%Q)
  | PosInf => (0 < q)%Q
  end.
Proof.
  unfold round64.
  destruct (Qeq_bool (Qabs q) 0) eqn:Hz.
  { split; intros _; lra. }
  apply Qeq_bool_neq in Hz.
  assert (~ q == 0)%Q as Hq.
  { intros Hq. apply Hz. rewrite Hq. reflexivity. }
  set (e := Z.max (ilog2 (Qabs q) - 52) (-1074)).
  set (m := round_half_even (Qabs q / 2 ^ e)).
  assert (0 <= m)%Z as Hm.
  { apply round_half_even_ge. change (inject_Z 0) with 0%Q.
    apply Qle_shift_div_l; [apply two_power_pos|].
    pose proof (Qabs_nonneg q). lra. }
  destruct (scaled_sign m e) as [Hr _]. specialize (Hr Hm).
  destruct (Qle_bool (2 ^ 1024) _);
    destruct (Qle_bool 0 q) eqn:Hs.
  - apply Qle_bool_iff in Hs. lra.
  - destruct (Qlt_le_dec q 0) as [|Hge]; [done|].
    apply Qle_bool_iff in Hge. congruence.
  - apply Qle_bool_iff in Hs. split; intros; lra.
  - destruct (Qlt_le_dec q 0) as [Hlt|Hge].
    + split; intros; lra.
    + apply Qle_bool_iff in Hge. congruence.
Qed.

Lemma ilog2_le (a : Q) : (1 <= a)%Q -> (2 ^ ilog2 a <= a)%Q.
Proof.
  intros Ha. unfold ilog2.
  assert (Qle_bool 1 a = true) as -> by (by apply Qle_bool_iff).
  pose proof (Qfloor_resp_le _ _ Ha) as Hf.
  change 1%Q with (inject_Z 1) in Hf. rewrite Qfloor_Z in Hf.
  destruct (Z.log2_spec (Qfloor a)) as [Hlo _]; [lia|].
  apply Qle_trans with (inject_Z (Qfloor a)); [|apply Qfloor_le].
  rewrite Zle_Qle in Hlo. rewrite Zpower_Qpower in Hlo; [exact Hlo|].
  apply Z.log2_nonneg.
Qed.

(** From 1 on, nothing is rounded to zero. *)
Lemma round64_positive q : (1 <= q)%Q -> positive (round64 q).
Proof.
  intros Hq. pose proof (round64_sign q) as Hsign.
  unfold round64 in *.
  rewrite (Qabs_nonneg_eq q) in * by lra.
  destruct (Qeq_bool q 0) eqn:Hz.
  { apply Qeq_bool_iff in Hz. lra. }
  set (e := Z.max (ilog2 q - 52) (-1074)) in *.
  set (m := round_half_even (q / 2 ^ e)) in *.
  assert (1 <= m)%Z as Hm.
  { apply round_half_even_ge. change (inject_Z 1) with 1%Q.
    apply Qle_shift_div_l; [apply two_power_pos|].
    rewrite Qmult_1_l.
    apply Qle_trans with (2 ^ ilog2 q)%Q; [|by apply ilog2_le].
    apply Qpower_le_compat_l; [|lra].
    assert (0 <= ilog2 q)%Z.
    { unfold ilog2.
      assert (Qle_bool 1 q = true) as -> by (by apply Qle_bool_iff).
      apply Z.log2_nonneg. }
    lia. }
  destruct (scaled_sign m e) as [_ Hr]. specialize (Hr Hm).
  assert (Qle_bool 0 q = true) as Hs by (apply Qle_bool_iff; lra).
  rewrite Hs in *.
  destruct (Qle_bool (2 ^ 1024) _); [done | exact Hr].
Qed.

Example round64_tenth :
  round64 (1 # 10) = Fin (3602879701896397 # 36028797018963968).
Proof. vm_compute. reflexivity. Qed.

Example round64_tie_to_even :
  round64 (9007199254740993 # 1) = Fin (9007199254740992 # 1)
  /\ round64 (9007199254740995 # 1) = Fin (9007199254740996 # 1).
Proof. split; vm_compute; reflexivity. Qed.

Example round64_subnormal :
  round64 (2 ^ (-1075)) = Fin 0
  /\ round64 (3 * 2 ^ (-1075)) = Fin (Qred (2 ^ (-1073))).
Proof. split; vm_compute; reflexivity. Qed.

Example round64_overflow :
  round64 (2 ^ 1024 - 2 ^ 970) = PosInf
  /\ round64 (- (2 ^ 1024)) = NegInf.
Proof. split; vm_compute; reflexivity. Qed.

(** ** Statistics of a group *)

(** Twenty levels of mean [80.05]: the quotient is the binary64 value just
    below it, shown as "80.0". *)
Example arr_avg_below_tie :
  @toFixed1 (fixed_offset 0) (arr_avg (Fin 81 :: repeat (Fin 80) 19)) = "80.0".
Proof. vm_compute. reflexivity. Qed.

(** The binary64 mean of three equal levels can exceed them. *)
Example arr_avg_above_levels :
  let tenth := decimal 1 (-1) in
  num_gt (arr_avg [tenth; tenth; tenth]) (Math_max [tenth; tenth; tenth])
  = true.
Proof. vm_compute. reflexivity. Qed.



Lemma num_gt_irrefl x : num_gt x x = false.
Proof.
  destruct x as [| |q|]; simpl; try done.
  destruct (Qlt_le_dec q q); [lra | done].
Qed.

Lemma num_gt_asym x y : num_gt x y = true -> num_gt y x = false.
Proof.
  destruct x as [| |a|], y as [| |b|]; simpl; try done.
  destruct (Qlt_le_dec b a), (Qlt_le_dec a b); try done. lra.
Qed.

Lemma num_le_trans x y z :
  isNaN y = false ->
  num_gt x y = false -> num_gt y z = false -> num_gt x z = false.
Proof.
  destruct x as [| |a|], y as [| |b|], z as [| |c|]; simpl; try done.
  destruct (Qlt_le_dec b a), (Qlt_le_dec c b), (Qlt_le_dec c a); try done. lra.
Qed.

Lemma num_le_NegInf x : isNaN x = false -> num_gt x NegInf = false -> x = NegInf.
Proof. by destruct x. Qed.

Lemma num_ge_PosInf x : isNaN x = false -> num_gt PosInf x = false -> x = PosInf.
Proof. by destruct x. Qed.

Lemma Math_max_from_spec hi l :
  isNaN hi = false ->
  Forall (fun x => isNaN x = false) l ->
  (Math_max_from hi l = hi \/ In (Math_max_from hi l) l)
  /\ isNaN (Math_max_from hi l) = false
  /\ num_gt hi (Math_max_from hi l) = false
  /\ forall x, In x l -> num_gt x (Math_max_from hi l) = false.
Proof.
  intros Hhi Hl. revert hi Hhi.
  induction Hl as [|n l Hn Hl IH]; intros hi Hhi; simpl.
  - repeat split; auto using num_gt_irrefl. tauto.
  - rewrite Hn.
    set (hi' := if num_gt n hi then n else hi).
    assert (isNaN hi' = false) as Hhi' by (subst hi'; by destruct (num_gt n hi)).
    assert (num_gt hi hi' = false /\ num_gt n hi' = false) as [Hle1 Hle2].
    { subst hi'. destruct (num_gt n hi) eqn:E;
        auto using num_gt_irrefl, num_gt_asym. }
    destruct (IH hi' Hhi') as (Hin & Hnan & Hle & Hall).
    split; [|split; [done|split]].
    + destruct Hin as [->|Hin]; [|by auto].
      subst hi'. destruct (num_gt n hi); auto.
    + by apply (num_le_trans _ hi').
    + intros x [<-|Hx]; [by apply (num_le_trans _ hi') | by apply Hall].
Qed.

Lemma Math_min_from_spec lo l :
  isNaN lo = false ->
  Forall (fun x => isNaN x = false) l ->
  (Math_min_from lo l = lo \/ In (Math_min_from lo l) l)
  /\ isNaN (Math_min_from lo l) = false
  /\ num_gt (Math_min_from lo l) lo = false
  /\ forall x, In x l -> num_gt (Math_min_from lo l) x = false.
Proof.
  intros Hlo Hl. revert lo Hlo.
  induction Hl as [|n l Hn Hl IH]; intros lo Hlo; simpl.
  - repeat split; auto using num_gt_irrefl. tauto.
  - rewrite Hn. unfold num_lt.
    set (lo' := if num_gt lo n then n else lo).
    assert (isNaN lo' = false) as Hlo' by (subst lo'; by destruct (num_gt lo n)).
    assert (num_gt lo' lo = false /\ num_gt lo' n = false) as [Hle1 Hle2].
    { subst lo'. destruct (num_gt lo n) eqn:E;
        auto using num_gt_irrefl, num_gt_asym. }
    destruct (IH lo' Hlo') as (Hin & Hnan & Hle & Hall).
    split; [|split; [done|split]].
    + destruct Hin as [->|Hin]; [|by auto].
      subst lo'. destruct (num_gt lo n); auto.
    + by apply (num_le_trans _ lo').
    + intros x [<-|Hx]; [by apply (num_le_trans _ lo') | by apply Hall].
Qed.

Lemma Math_max_greatest levels :
  levels <> [] -> Forall (fun x => isNaN x = false) levels ->
  greatest (Math_max levels) levels.
Proof.
  intros Hne Hl.
  destruct (Math_max_from_spec NegInf levels eq_refl Hl)
    as (Hin & Hnan & _ & Hall).
  split; [|exact Hall]. destruct Hin as [Heq|Hin]; [|done].
  fold (Math_max levels) in Heq, Hall. rewrite Heq in *.
  destruct levels as [|x l]; [done|]. left.
  apply num_le_NegInf; [by inversion Hl | apply Hall; by left].
Qed.

Lemma Math_min_least levels :
  levels <> [] -> Forall (fun x => isNaN x = false) levels ->
  least (Math_min levels) levels.
Proof.
  intros Hne Hl.
  destruct (Math_min_from_spec PosInf levels eq_refl Hl)
    as (Hin & Hnan & _ & Hall).
  split; [|exact Hall]. destruct Hin as [Heq|Hin]; [|done].
  fold (Math_min levels) in Heq, Hall. rewrite Heq in *.
  destruct levels as [|x l]; [done|]. left.
  apply num_ge_PosInf; [by inversion Hl | apply Hall; by left].
Qed.





Lemma positive_levels rows :
  Forall positive (map sugarLevel (processedData rows)).
Proof.
  apply List.Forall_forall. intros x Hx.
  apply in_map_iff in Hx as (r & <- & Hr).
  by apply (processedData_positive rows).
Qed.

Lemma positive_levels_filter (f : Reading -> bool) (l : list Reading) :
  Forall positive (map sugarLevel l) ->
  Forall positive (map sugarLevel (List.filter f l)).
Proof.
  rewrite !List.Forall_forall. intros Hl x Hx.
  apply in_map_iff in Hx as (r & <- & Hr). apply filter_In in Hr as [Hr _].
  apply Hl. by apply in_map.
Qed.




(** ** Order of the normalized collection *)

Lemma by_date_gt a b x y :
  date a = Some x -> date b = Some y ->
  num_gt (SortCompare by_date a b) (Fin 0) = (y <? x)%Z.
Proof.
  intros Ha Hb. unfold SortCompare, by_date. rewrite Ha, Hb. simpl.
  set (d := (inject_Z x + - inject_Z y)%Q).
  pose proof (round64_sign d) as Hsign.
  destruct (Z.ltb_spec y x) as [Hlt|Hge].
  - assert (1 <= d)%Q as Hd.
    { subst d. assert (y + 1 <= x)%Z as Hle by lia.
      rewrite Zle_Qle, inject_Z_plus in Hle.
      change (inject_Z 1) with 1%Q in Hle. lra. }
    pose proof (round64_positive d Hd) as Hpos.
    destruct (round64 d) as [| |r|]; simpl in *; try done.
    by destruct (Qlt_le_dec 0 r); [|lra].
  - assert (d <= 0)%Q as Hd.
    { subst d. rewrite Zle_Qle in Hge. lra. }
    destruct (round64 d) as [| |r|]; simpl in *; [done | done | | lra].
    destruct Hsign as [_ Hr]. specialize (Hr Hd).
    by destruct (Qlt_le_dec 0 r); [lra|].
Qed.

Lemma sort_insert_sorted x s :
  is_Some (date x) ->
  Forall (fun y => is_Some (date y) /\ (id x < id y)%nat) s ->
  StronglySorted before s ->
  StronglySorted before (sort_insert by_date x s).
Proof.
  intros [dx Hdx] Hs Hsorted.
  induction Hsorted as [|y s Hsorted IH Hy]; simpl.
  { repeat constructor. }
  apply Forall_cons in Hs as [[[dy Hdy] Hid] Hs].
  rewrite (by_date_gt x y dx dy Hdx Hdy).
  destruct (Z.ltb_spec dy dx) as [Hlt|Hge].
  - apply StronglySorted_cons. split; [|by apply IH].
    apply Forall_forall. intros z Hz.
    apply list_elem_of_In in Hz.
    apply (Permutation_in _ (Permutation_sym (sort_insert_perm by_date x s)))
      in Hz as [<-|Hz].
    + unfold before. rewrite Hdy, Hdx. by left.
    + rewrite Forall_forall in Hy. by apply Hy, list_elem_of_In.
  - apply StronglySorted_cons. split; [|by constructor].
    assert (before x y) as Hxy.
    { unfold before. rewrite Hdx, Hdy. lia. }
    constructor; [done|].
    rewrite Forall_forall in Hy, Hs |- *. intros z Hz.
    specialize (Hy z Hz). destruct (Hs z Hz) as [_ Hidz].
    unfold before in *. rewrite Hdx. rewrite Hdy in Hy.
    destruct (date z) as [dz|]; [lia | done].
Qed.

Lemma Array_sort_sorted l :
  Forall (fun y => is_Some (date y)) l ->
  StronglySorted (fun a b => (id a < id b)%nat) l ->
  StronglySorted before (Array_sort by_date l).
Proof.
  intros Hvalid Hids.
  induction Hids as [|x l Hids IH Hx]; simpl; [constructor|].
  apply Forall_cons in Hvalid as [Hdx Hvalid].
  apply sort_insert_sorted; [done | | by apply IH].
  rewrite <- (Array_sort_perm by_date l).
  rewrite Forall_forall in Hvalid, Hx |- *. intros y Hy. split; auto.
Qed.

Lemma imap_normalize_ids (f : nat -> nat) rows :
  (forall i j, (i < j)%nat -> (f i < f j)%nat) ->
  StronglySorted (fun a b => (id a < id b)%nat)
    (imap (fun i => normalize (f i)) rows).
Proof.
  revert f. induction rows as [|row rows IH]; intros f Hf; [constructor|].
  rewrite imap_cons. constructor.
  - apply (IH (f ∘ S)). intros i j Hij. apply Hf. lia.
  - apply Forall_forall. intros r Hr.
    apply elem_of_lookup_imap in Hr as (i & row' & -> & _). simpl.
    apply Hf. lia.
Qed.

Lemma filter_sorted {A} (R : A -> A -> Prop) (f : A -> bool) l :
  StronglySorted R l -> StronglySorted R (List.filter f l).
Proof.
  induction 1 as [|x l Hl IH Hx]; simpl; [constructor|].
  destruct (f x); [|done]. constructor; [done|].
  rewrite Forall_forall in Hx |- *. intros y Hy.
  apply list_elem_of_In, filter_In in Hy as [Hy _].
  by apply Hx, list_elem_of_In.
Qed.

Lemma processed_sorted rows :
  (forall r, In r (processed rows) -> date r <> None) ->
  StronglySorted before (processed rows).
Proof.
  intros Hvalid. unfold processed. apply Array_sort_sorted.
  - apply Forall_forall. intros r Hr. apply list_elem_of_In in Hr.
    apply (Permutation_in _ (Array_sort_perm by_date _)) in Hr.
    specialize (Hvalid r Hr). by destruct (date r).
  - apply filter_sorted. apply (imap_normalize_ids (fun i => i)). auto.
Qed.

(** With valid dates the comparison function is consistent and the sorted
    array is determined: it is the only arrangement of the retained readings
    that is in order and keeps the rows of one date in input order. *)
Lemma processed_determined rows (l : list Reading) :
  (forall r, In r (processed rows) -> date r <> None) ->
  l ≡ₚ processed rows -> StronglySorted before l -> l = processed rows.
Proof.
  intros Hvalid Hperm Hl.
  apply (StronglySorted_unique_strong before); [|done|by apply processed_sorted|done].
  intros a b _ _ Hab Hba. exfalso. unfold before in *.
  destruct (date a), (date b); try done. lia.
Qed.

Lemma sorted_lookup {A} (R : A -> A -> Prop) l i j a b :
  StronglySorted R l -> (i < j)%nat ->
  l !! i = Some a -> l !! j = Some b -> R a b.
Proof.
  intros Hl. revert i j. induction Hl as [|x l Hl IH Hx]; intros i j Hij Hi Hj.
  { done. }
  destruct j as [|j]; [lia|]. simpl in Hj.
  destruct i as [|i]; simpl in Hi.
  - injection Hi as <-. rewrite Forall_forall in Hx.
    apply Hx, list_elem_of_lookup. eauto.
  - apply (IH i j); [lia | done | done].
Qed.

(** C3, as the code has it: when no reading of the normalized collection
    carries an Invalid Date, the collection is sorted by date, earliest
    first, and readings of one date keep the order of their rows. *)
Theorem sorted_by_date_stable (rows : list RawRow) :
  (forall r, In r (processedData rows) -> date r <> None) ->
  forall i j a b,
    (i < j)%nat ->
    processedData rows !! i = Some a ->
    processedData rows !! j = Some b ->
    exists x y,
      date a = Some x /\ date b = Some y
      /\ (x <= y)%Z /\ (x = y -> (id a < id b)%nat).
Proof.
  intros Hvalid i j a b Hij Ha Hb. rewrite processedData_eq in *.
  assert (StronglySorted before (processed rows)) as Hsorted.
  { apply processed_sorted. intros r Hr.
    destruct (label_pass_In ∅ _ _ Hr) as [n Hn].
    exact (Hvalid _ Hn). }
  apply label_pass_lookup in Ha as (a0 & na & Ha & ->).
  apply label_pass_lookup in Hb as (b0 & nb & Hb & ->).
  pose proof (sorted_lookup _ _ _ _ _ _ Hsorted Hij Ha Hb) as Hab.
  unfold before in Hab. simpl.
  destruct (date a0) as [x|]; [|done]. destruct (date b0) as [y|]; [|done].
  exists x, y. repeat split; lia.
Qed.

End Pipeline.

(** ** The labelling pass *)

Section Labels.
Context `{Platform}.

Lemma label_pass_occurrence (m : gmap string nat) l i r0 :
  l !! i = Some r0 ->
  label_pass m l !! i =
    Some (set_displayDate
            (display_label (default 0%nat (m !! dateStr r0) + occurrence l i r0) r0)
            r0).
Proof.
  revert m i. induction l as [|x l IH]; intros m i Hi; [done|].
  destruct i as [|i]; simpl in Hi |- *.
  - injection Hi as ->. unfold occurrence. simpl.
    by rewrite String.eqb_refl.
  - rewrite (IH _ _ Hi). do 3 f_equal.
    unfold occurrence. cbn [take List.filter].
    destruct (String.eqb_spec (dateStr x) (dateStr r0)) as [->|Hne].
    + rewrite lookup_insert_eq. simpl. lia.
    + by rewrite lookup_insert_ne.
Qed.

Lemma label_pass_same_day (m : gmap string nat) l k day :
  length (List.filter (fun x => String.eqb (dateStr x) day)
            (take k (label_pass m l)))
  = length (List.filter (fun x => String.eqb (dateStr x) day) (take k l)).
Proof.
  revert m k. induction l as [|x l IH]; intros m k; [by destruct k|].
  destruct k as [|k]; [done|]. simpl.
  destruct (String.eqb _ _); simpl; by rewrite IH.
Qed.

(** The mechanism the labels follow: the first reading of a day keeps the
    bare day label; occurrence [n >= 2] appends its time when it has one and
    ["#n"] otherwise. *)
Lemma label_mechanism rows i r :
  processedData rows !! i = Some r ->
  displayDate r =
    Some (display_label (occurrence (processedData rows) i r) r).
Proof.
  rewrite processedData_eq. intros Hr.
  destruct (label_pass_lookup _ _ _ _ Hr) as (r0 & n & Hr0 & ->).
  rewrite (label_pass_occurrence ∅ _ _ _ Hr0) in Hr.
  injection Hr as Hr. rewrite lookup_empty in Hr. simpl in *.
  assert (occurrence (label_pass ∅ (processed rows)) i
            (set_displayDate (display_label n r0) r0)
          = occurrence (processed rows) i r0) as ->.
  { unfold occurrence. simpl. apply label_pass_same_day. }
  rewrite <- Hr at 1. reflexivity.
Qed.

End Labels.

(** ** The scenario of three rows *)

Section Scenario.
Variable tz : Z -> Z.
Variable legacy_parse : string -> option Z.
Variable other_digits : Q -> string.

Local Abbreviation platform := (Browser.platform tz legacy_parse other_digits).

(** The array before the labelling pass, whatever the date formatter. *)
Lemma scenario_processed_with (f : Z -> string) :
  @processed {| Date_parse := Browser.parse legacy_parse;
                Number_toString := Browser.number_digits other_digits;
                toLocaleDateString := f |} scenario_rows =
    [ {| id := 0; date := Some jan_1_2024; dateStr := f jan_1_2024;
         sugarLevel := Fin 95; type := JSString "FASTING";
         time := JSString ""; notes := JSString ""; displayDate := None |};
      {| id := 1; date := Some jan_1_2024; dateStr := f jan_1_2024;
         sugarLevel := Fin 150; type := JSString "RANDOM";
         time := JSString "14:00"; notes := JSString "";
         displayDate := None |} ].
Proof. vm_compute. reflexivity. Qed.

(** The readings kept and the statistics, whatever the date formatter. *)
Lemma scenario_stats_with (f : Z -> string) :
  let platform_f := {| Date_parse := Browser.parse legacy_parse;
                       Number_toString := Browser.number_digits other_digits;
                       toLocaleDateString := f |} in
  map (fun r => (id r, date r, sugarLevel r))
      (@processedData platform_f scenario_rows)
  = [ (0%nat, Some jan_1_2024, Fin 95); (1%nat, Some jan_1_2024, Fin 150) ]
  /\ @stats platform_f scenario_rows = scenario_stats.
Proof. split; vm_compute; reflexivity. Qed.

(** In every time zone the three rows give two readings, the first and the
    second row at midnight UTC of 2024-01-01, and the statistics of the
    scenario: overall 2 readings, average 122.5, highest 150, lowest 95;
    fasting 1 reading, average 95.0; random 1 reading, average 150.0. *)
Lemma scenario_statistics :
  map (fun r => (id r, date r, sugarLevel r))
      (@processedData platform scenario_rows)
  = [ (0%nat, Some jan_1_2024, Fin 95); (1%nat, Some jan_1_2024, Fin 150) ]
  /\ @stats platform scenario_rows = scenario_stats.
Proof. exact (scenario_stats_with (Browser.month_day tz)). Qed.

Hypothesis east_of_utc : (0 <= tz jan_1_2024 < Browser.msPerDay)%Z.

Lemma month_day_jan_1 : Browser.month_day tz jan_1_2024 = "Jan 1".
Proof.
  unfold Browser.month_day.
  assert (((jan_1_2024 + tz jan_1_2024) / Browser.msPerDay)%Z = 19723%Z) as ->.
  { symmetry. apply (Z.div_unique _ _ _ (tz jan_1_2024)).
    - left. exact east_of_utc.
    - unfold jan_1_2024, Browser.msPerDay. lia. }
  vm_compute. reflexivity.
Qed.

(** Where local time at midnight UTC of 2024-01-01 is not behind UTC, the
    two readings are labelled "Jan 1" and "Jan 1 (14:00)". *)
Lemma scenario_processedData :
  @processedData platform scenario_rows = [scenario_first; scenario_second].
Proof.
  rewrite processedData_eq. unfold Browser.platform.
  rewrite (scenario_processed_with (Browser.month_day tz)), month_day_jan_1.
  vm_compute. reflexivity.
Qed.

End Scenario.

(** C7: five hours west of UTC the three rows give the two readings and the
    statistics of the scenario, but the labels are "Dec 31" and
    "Dec 31 (14:00)" where the scenario says "Jan 1" and "Jan 1 (14:00)":
    [new Date("2024-01-01")] is midnight UTC, which [toLocaleDateString]
    prints in local time, still the evening of December 31 there. *)
Theorem scenario_labels_west_of_utc :
  map (fun r => (id r, date r, sugarLevel r))
      (@processedData (fixed_offset (-18000000)) scenario_rows)
  = [ (0%nat, Some jan_1_2024, Fin 95); (1%nat, Some jan_1_2024, Fin 150) ]
  /\ @stats (fixed_offset (-18000000)) scenario_rows = scenario_stats
  /\ map displayDate
       (@processedData (fixed_offset (-18000000)) scenario_rows)
     = [Some "Dec 31"; Some "Dec 31 (14:00)"]
  /\ @processedData (fixed_offset (-18000000)) scenario_rows
     <> [scenario_first; scenario_second].
Proof.
  assert (map displayDate
            (@processedData (fixed_offset (-18000000)) scenario_rows)
          = [Some "Dec 31"; Some "Dec 31 (14:00)"]) as Hlabels
    by (vm_compute; reflexivity).
  split; [by vm_compute|]. split; [by vm_compute|].
  split; [exact Hlabels|].
  intros Heq. rewrite Heq in Hlabels. discriminate Hlabels.
Qed.

(** ** Display labels *)

(** C2 fails on [rows_same_time]: the second and the third reading share the
    day label "Jan 1" and receive the same display label. *)
Theorem same_time_same_label :
  map (fun r => (dateStr r, displayDate r))
      (@processedData (fixed_offset 0) rows_same_time)
  = [ ("Jan 1", Some "Jan 1");
      ("Jan 1", Some "Jan 1 (14:00)");
      ("Jan 1", Some "Jan 1 (14:00)") ].
Proof. vm_compute. reflexivity. Qed.

(** ** An Invalid Date inside the collection *)

(** C3 as stated fails on [rows_undated_between]: the undated row compares
    equal to both neighbours, nothing moves, and January 2 stays ahead of
    January 1. *)
Lemma undated_row_breaks_order :
  map date (@processedData (fixed_offset 0) rows_undated_between)
  = [Some 1704153600000%Z; None; Some 1704067200000%Z]
  /\ ~ never_decreasing (@processedData (fixed_offset 0) rows_undated_between).
Proof.
  split; [vm_compute; reflexivity|].
  intros Hsorted.
  pose (later := {| id := 0; date := Some 1704153600000%Z; dateStr := "Jan 2";
                    sugarLevel := Fin 110; type := JSString "UNKNOWN";
                    time := JSString ""; notes := JSString "";
                    displayDate := Some "Jan 2" |}).
  pose (earlier := {| id := 2; date := Some 1704067200000%Z; dateStr := "Jan 1";
                      sugarLevel := Fin 95; type := JSString "UNKNOWN";
                      time := JSString ""; notes := JSString "";
                      displayDate := Some "Jan 1" |}).
  assert (@processedData (fixed_offset 0) rows_undated_between !! 0%nat
          = Some later) as Ha by (vm_compute; reflexivity).
  assert (@processedData (fixed_offset 0) rows_undated_between !! 2%nat
          = Some earlier) as Hb by (vm_compute; reflexivity).
  pose proof (Hsorted 0%nat 2%nat later earlier _ _
                (le_S _ _ (le_n 1)) Ha Hb eq_refl eq_refl) as Hle.
  lia.
Qed.

Lemma sorted_by_date_stable_scenario :
  exists x y,
    date scenario_first = Some x /\ date scenario_second = Some y
    /\ (x <= y)%Z /\ (x = y -> (id scenario_first < id scenario_second)%nat).
Proof.
  assert (forall r, In r (@processedData (fixed_offset 0) scenario_rows) ->
                    date r <> None) as Hvalid.
  { intros r Hr. vm_compute in Hr. destruct Hr as [<-|[<-|[]]]; discriminate. }
  assert (@processedData (fixed_offset 0) scenario_rows !! 0%nat
          = Some scenario_first) as Ha by (vm_compute; reflexivity).
  assert (@processedData (fixed_offset 0) scenario_rows !! 1%nat
          = Some scenario_second) as Hb by (vm_compute; reflexivity).
  exact (@sorted_by_date_stable (fixed_offset 0) scenario_rows Hvalid
           0%nat 1%nat scenario_first scenario_second (le_n 1) Ha Hb).
Defined.

(** ** The loader *)

(** A rejected request for the sheet ends the load at once: the local file
    is not requested, and the error shown is the message of the rejection. *)
Lemma load_remote_rejected (env : Env) (message : string) :
  sheet_configured (VITE_GOOGLE_SHEET_ID env) = true ->
  fetch env (GOOGLE_SHEET_URL (VITE_GOOGLE_SHEET_ID env)) = Rejected message ->
  loadCSVData env =
    ([GOOGLE_SHEET_URL (VITE_GOOGLE_SHEET_ID env)],
     LoadError ("Error loading CSV file: " +:+ message)).
Proof.
  intros Hconf Hfetch. unfold loadCSVData, load_text. rewrite Hconf.
  unfold mbind, Async_bind, await_fetch. by rewrite Hfetch.
Qed.

(** The sibling path: when the sheet answers with an HTTP error the local
    file is requested, and when that answers with an HTTP error too the
    message names both sources. *)
Lemma load_both_not_ok (env : Env) (r1 r2 : Response) :
  sheet_configured (VITE_GOOGLE_SHEET_ID env) = true ->
  fetch env (GOOGLE_SHEET_URL (VITE_GOOGLE_SHEET_ID env)) = Fulfilled r1 ->
  ok r1 = false ->
  fetch env LOCAL_CSV_URL = Fulfilled r2 ->
  ok r2 = false ->
  loadCSVData env =
    ([GOOGLE_SHEET_URL (VITE_GOOGLE_SHEET_ID env); LOCAL_CSV_URL],
     LoadError "Error loading CSV file: Failed to load CSV file from both Google Sheets and local source. Check console for details.").
Proof.
  intros Hconf Hf1 Hok1 Hf2 Hok2. unfold loadCSVData, load_text. rewrite Hconf.
  unfold mbind, Async_bind, await_fetch. rewrite Hf1, Hok1. simpl.
  rewrite String.eqb_refl, Hf2, Hok2. reflexivity.
Qed.

(** C1 fails on [env_all_rejected]: the request for the sheet is rejected,
    the local file is never requested, and the error does not mention two
    sources. *)
Theorem rejected_fetch_skips_fallback :
  loadCSVData env_all_rejected =
    (["https://docs.google.com/spreadsheets/d/sheet1/export?format=csv&gid=0"],
     LoadError "Error loading CSV file: Failed to fetch")
  /\ ~ In LOCAL_CSV_URL (fst (loadCSVData env_all_rejected)).
Proof.
  split; [vm_compute; reflexivity|].
  vm_compute. intros [Heq|[]]. discriminate.
Qed.

(** ** The theorems at work on the examples *)

Lemma zero_level_row_excluded : id scenario_first <> 2%nat.
Proof.
  pose (row := row_of [("date", JSString "2024-01-02");
                       ("sugarLevel", JSNumber (Fin 0));
                       ("type", JSString "FASTING")]).
  assert (scenario_rows !! 2%nat = Some row) as Hrow by reflexivity.
  assert (@parseFloat (fixed_offset 0) (prop row "sugarLevel") = Fin 0)
    as Hlevel by (vm_compute; reflexivity).
  assert (non_positive (@parseFloat (fixed_offset 0) (prop row "sugarLevel")))
    as Hbad by (rewrite Hlevel; vm_compute; discriminate).
  assert (In scenario_first (@processedData (fixed_offset 0) scenario_rows))
    as Hin by (vm_compute; auto).
  exact (proj1 (@non_positive_levels_excluded (fixed_offset 0) scenario_rows)
           2%nat row Hrow (or_intror Hbad) scenario_first Hin).
Defined.

Lemma scenario_first_is_fasting :
  In scenario_first (@fastingData (fixed_offset 0) scenario_rows)
  /\ ~ In scenario_first (@randomData (fixed_offset 0) scenario_rows).
Proof.
  assert (In scenario_first (@processedData (fixed_offset 0) scenario_rows))
    as Hin by (vm_compute; auto).
  destruct (@partition_by_type (fixed_offset 0) scenario_rows scenario_first Hin)
    as (Hf & _).
  apply Hf. reflexivity.
Defined.

Lemma undated_row_retained :
  exists r,
    In r (@processedData (fixed_offset 0) rows_undated_between)
    /\ id r = 1%nat /\ date r = None /\ sugarLevel r = Fin 120.
Proof.
  pose (row := row_of [("sugarLevel", JSNumber (Fin 120))]).
  assert (rows_undated_between !! 1%nat = Some row) as Hrow by reflexivity.
  assert (@new_Date (fixed_offset 0) (prop row "date") = None) as Hdate
    by (vm_compute; reflexivity).
  assert (@parseFloat (fixed_offset 0) (prop row "sugarLevel") = Fin 120)
    as Hlevel by (vm_compute; reflexivity).
  assert (positive (@parseFloat (fixed_offset 0) (prop row "sugarLevel")))
    as Hpos by (rewrite Hlevel; vm_compute; reflexivity).
  destruct (proj2 (@invalid_date_retained (fixed_offset 0) rows_undated_between
                     1%nat row Hrow) Hdate Hpos) as (r & Hr & Hid & Hd & Hs).
  exists r. rewrite Hlevel in Hs. auto.
Defined.

Lemma scenario_second_from_row_1 :
  exists row label,
    scenario_rows !! id scenario_second = Some row
    /\ scenario_second
       = @set_displayDate label
           (@normalize (fixed_offset 0) (id scenario_second) row).
Proof.
  assert (In scenario_second (@processedData (fixed_offset 0) scenario_rows))
    as Hin by (vm_compute; auto).
  exact (proj1 (@id_is_row_position (fixed_offset 0))
           scenario_rows scenario_second Hin).
Defined.

Lemma scenario_counts_add_up :
  (count (fasting (@stats (fixed_offset 0) scenario_rows))
   + count (random (@stats (fixed_offset 0) scenario_rows)))%nat
  = count (overall (@stats (fixed_offset 0) scenario_rows)).
Proof.
  apply (proj2 (proj2 (@counts_add_up (fixed_offset 0) scenario_rows))).
  intros r Hr. vm_compute in Hr.
  destruct Hr as [<-|[<-|[]]]; [left | right]; reflexivity.
Defined.

(** * Further properties *)

(** ** Requests of the loader *)

Lemma sheet_url_not_local id : String.eqb LOCAL_CSV_URL (GOOGLE_SHEET_URL id) = false.
Proof. reflexivity. Qed.

Lemma local_not_sheet_url id : GOOGLE_SHEET_URL id <> LOCAL_CSV_URL.
Proof. unfold GOOGLE_SHEET_URL, LOCAL_CSV_URL. simpl. discriminate. Qed.

(** Unfolds one run of the loader into the outcomes of its requests. *)
Ltac loader_cases env :=
  unfold loadCSVData, load_text, mbind, Async_bind, await_fetch, await_text,
    throw, mret, Async_ret;
  destruct (sheet_configured (VITE_GOOGLE_SHEET_ID env)) eqn:Hconf;
  [ rewrite ?String.eqb_refl;
    destruct (fetch env (GOOGLE_SHEET_URL (VITE_GOOGLE_SHEET_ID env)))
      as [r1|m1] eqn:Hsheet;
    [ destruct (ok r1) eqn:Hok1; simpl;
      [ destruct (text r1) as [body1|m1] eqn:Htext1
      | destruct (fetch env LOCAL_CSV_URL) as [r2|m2] eqn:Hlocal;
        [ destruct (ok r2) eqn:Hok2; simpl;
          [ destruct (text r2) as [body2|m2] eqn:Htext2 | ]
        | ] ]
    | ]
  | rewrite ?sheet_url_not_local;
    destruct (fetch env LOCAL_CSV_URL) as [r2|m2] eqn:Hlocal;
    [ destruct (ok r2) eqn:Hok2; simpl;
      [ destruct (text r2) as [body2|m2] eqn:Htext2 | ]
    | ] ];
  simpl.

(** X1: the loader makes one request or two.  Without a configured sheet it
    asks for the local file and nothing else; with one it asks for the sheet
    first and, if at all, for the local file second. *)
Theorem loader_requests (env : Env) :
  (sheet_configured (VITE_GOOGLE_SHEET_ID env) = false ->
   fst (loadCSVData env) = [LOCAL_CSV_URL])
  /\ (sheet_configured (VITE_GOOGLE_SHEET_ID env) = true ->
      fst (loadCSVData env) = [GOOGLE_SHEET_URL (VITE_GOOGLE_SHEET_ID env)]
      \/ fst (loadCSVData env)
         = [GOOGLE_SHEET_URL (VITE_GOOGLE_SHEET_ID env); LOCAL_CSV_URL]).
Proof.
  loader_cases env; split; intros; try discriminate; auto.
Qed.

Lemma env_sheet_404_requests :
  fst (loadCSVData env_sheet_404)
  = ["https://docs.google.com/spreadsheets/d/sheet1/export?format=csv&gid=0";
     "/data/bloodsugar-data.csv"].
Proof.
  destruct (proj2 (loader_requests env_sheet_404) eq_refl) as [Hone|Htwo].
  - vm_compute in Hone. discriminate Hone.
  - exact Htwo.
Defined.

Lemma trim_start_blank s : trim_start s = "" <-> blank s.
Proof.
  unfold blank. induction s as [|c s IH]; simpl.
  - split; [intros _ c [] | done].
  - destruct (is_whitespace c) eqn:Hc.
    + rewrite IH. split.
      * intros Hs d [<-|Hd]; auto.
      * intros Hs d Hd. apply Hs. by right.
    + split; [discriminate|]. intros Hs.
      specialize (Hs c (or_introl eq_refl)). congruence.
Qed.

Lemma trim_end_blank s : trim_end s = "" <-> blank s.
Proof.
  unfold blank. induction s as [|c s IH]; simpl.
  - split; [intros _ c [] | done].
  - destruct (trim_end s) as [|d t] eqn:Ht.
    + destruct (is_whitespace c) eqn:Hc.
      * split; [|done]. intros _ e [<-|He]; [done|]. by apply IH.
      * split; [discriminate|]. intros Hs.
        specialize (Hs c (or_introl eq_refl)). congruence.
    + split; [discriminate|]. intros Hs.
      assert (String d t = "") as Hnil; [|discriminate Hnil].
      apply IH. intros e He. apply Hs. by right.
Qed.

Lemma trim_start_head s :
  trim_start s = ""
  \/ exists c r, trim_start s = String c r /\ is_whitespace c = false.
Proof.
  induction s as [|c s IH]; simpl; [by left|].
  destruct (is_whitespace c) eqn:Hc; [done|]. right. eauto.
Qed.

Lemma trim_blank s : trim s = "" <-> blank s.
Proof.
  unfold trim. rewrite trim_end_blank, <- (trim_start_blank s).
  destruct (trim_start_head s) as [->|(c & r & -> & Hc)].
  - split; [done|]. intros _ c [].
  - split; [|discriminate]. intros Hs.
    specialize (Hs c (or_introl eq_refl)). congruence.
Qed.

Lemma sheet_configured_false id :
  sheet_configured id = false <-> id = None \/ exists s, id = Some s /\ blank s.
Proof.
  destruct id as [s|]; simpl; [|split; auto].
  rewrite andb_false_iff, !negb_false_iff, !String.eqb_eq, trim_blank. split.
  - intros [->|Hs]; right; eexists; split; try done. intros c [].
  - intros [|(s' & [= <-] & Hs)]; [done | by right].
Qed.

(** X2: the loader asks for the local file alone exactly when the sheet
    identifier is undefined or holds nothing but white space (the empty
    string included). *)
Theorem blank_sheet_id_loads_local (env : Env) :
  fst (loadCSVData env) = [LOCAL_CSV_URL]
  <-> VITE_GOOGLE_SHEET_ID env = None
      \/ exists s, VITE_GOOGLE_SHEET_ID env = Some s /\ blank s.
Proof.
  rewrite <- sheet_configured_false.
  loader_cases env; split; try done; intros [= Hurl];
    by destruct (local_not_sheet_url (VITE_GOOGLE_SHEET_ID env)).
Qed.

Lemma env_blank_sheet_requests :
  fst (loadCSVData env_blank_sheet) = ["/data/bloodsugar-data.csv"].
Proof.
  apply (proj2 (blank_sheet_id_loads_local env_blank_sheet)).
  right. exists "  ". split; [reflexivity|].
  intros c [<-|[<-|[]]]; reflexivity.
Defined.

(** X3: with a sheet configured, the local file is asked for exactly when
    the request for the sheet is answered and the answer is not [ok]; a
    rejected request, or an [ok] answer whose body cannot be read, ends the
    load without the fallback. *)
Theorem fallback_iff_http_error (env : Env) :
  sheet_configured (VITE_GOOGLE_SHEET_ID env) = true ->
  (In LOCAL_CSV_URL (fst (loadCSVData env))
   <-> exists r, fetch env (GOOGLE_SHEET_URL (VITE_GOOGLE_SHEET_ID env))
                 = Fulfilled r /\ ok r = false).
Proof.
  pose proof (local_not_sheet_url (VITE_GOOGLE_SHEET_ID env)) as Hne.
  intros Hc. loader_cases env; try congruence; split;
    try (intros [Heq|[]]; congruence);
    try (intros (r & [= <-] & Hr); congruence);
    try (intros (r & Hr & _); discriminate Hr);
    try (intros _; right; left; reflexivity);
    try (intros _; eauto).
Qed.

Lemma env_sheet_404_falls_back :
  In LOCAL_CSV_URL (fst (loadCSVData env_sheet_404)).
Proof.
  apply (proj2 (fallback_iff_http_error env_sheet_404 eq_refl)).
  exists not_found. split; reflexivity.
Defined.

(** X4: the text handed to the parser is the body of an [ok] answer to the
    last request made.  It is called "Google Sheets" only when the sheet was
    the only request (and the answer was the sheet's), and "local file" only
    when it came from the local path. *)
Theorem parsed_text_provenance (env : Env) urls csvData source :
  loadCSVData env = (urls, Parsing csvData source) ->
  exists url r,
    last urls = Some url
    /\ fetch env url = Fulfilled r /\ ok r = true
    /\ text r = Fulfilled csvData
    /\ ((source = "Google Sheets"
         /\ urls = [GOOGLE_SHEET_URL (VITE_GOOGLE_SHEET_ID env)])
        \/ (source = "local file" /\ url = LOCAL_CSV_URL)).
Proof.
  loader_cases env; intros [= <- <- <-]; eexists _, _;
    (split; [reflexivity|]); (split; [eassumption|]); auto.
Qed.

Lemma env_sheet_404_provenance :
  exists url r,
    last ["https://docs.google.com/spreadsheets/d/sheet1/export?format=csv&gid=0";
          "/data/bloodsugar-data.csv"] = Some url
    /\ fetch env_sheet_404 url = Fulfilled r /\ ok r = true
    /\ text r = Fulfilled "date,sugarLevel"
    /\ (("local file" = "Google Sheets"
         /\ ["https://docs.google.com/spreadsheets/d/sheet1/export?format=csv&gid=0";
             "/data/bloodsugar-data.csv"]
            = [GOOGLE_SHEET_URL (VITE_GOOGLE_SHEET_ID env_sheet_404)])
        \/ ("local file" = "local file" /\ url = LOCAL_CSV_URL)).
Proof.
  apply (parsed_text_provenance env_sheet_404). vm_compute. reflexivity.
Defined.

(** X5: the load reaches the parser exactly when the last request made is
    answered [ok] with a readable body. *)
Theorem load_succeeds_iff (env : Env) :
  (exists csvData source, snd (loadCSVData env) = Parsing csvData source)
  <-> exists url r body,
        last (fst (loadCSVData env)) = Some url
        /\ fetch env url = Fulfilled r /\ ok r = true
        /\ text r = Fulfilled body.
Proof.
  loader_cases env; split;
    first
      [ solve [intros _; eexists _, _, _; split; [reflexivity|]; eauto]
      | solve [intros _; eauto]
      | solve [intros (? & ? & [=])]
      | intros (url & r & body & [= <-] & Hr & Hok & Htext); congruence ].
Qed.

(** X6: when the sheet answers with an HTTP error, what reaches the parser
    is what a loader without a sheet would have handed over: the body of the
    local file, named "local file". *)
Theorem fallback_like_local (env : Env) (r : Response) csvData source :
  sheet_configured (VITE_GOOGLE_SHEET_ID env) = true ->
  fetch env (GOOGLE_SHEET_URL (VITE_GOOGLE_SHEET_ID env)) = Fulfilled r ->
  ok r = false ->
  (snd (loadCSVData env) = Parsing csvData source
   <-> source = "local file"
       /\ snd (loadCSVData (without_sheet env)) = Parsing csvData "local file").
Proof.
  intros Hc Hr Hok.
  unfold loadCSVData, load_text, mbind, Async_bind, await_fetch, await_text,
    throw, mret, Async_ret, without_sheet. simpl.
  rewrite Hc, Hr, Hok, String.eqb_refl. simpl.
  destruct (fetch env LOCAL_CSV_URL) as [r2|m2]; simpl;
    [destruct (ok r2); simpl; [destruct (text r2); simpl|]|];
    split;
    first
      [ solve [intros [= <- <-]; auto]
      | solve [intros [-> [= <-]]; reflexivity]
      | solve [intros [=]]
      | solve [intros [_ [=]]] ].
Qed.

Lemma env_sheet_404_like_local :
  snd (loadCSVData env_sheet_404) = Parsing "date,sugarLevel" "local file".
Proof.
  apply (proj2 (fallback_like_local env_sheet_404 not_found
                  "date,sugarLevel" "local file" eq_refl eq_refl eq_refl)).
  split; [reflexivity | vm_compute; reflexivity].
Defined.

(** ** Header cleaning *)

Lemma clean_row_fold (row : PapaRow) (acc : RawRow) (name : string) :
  name <> "__proto__" ->
  fold_left
    (fun cleanedRow '(key, value) =>
       let cleanKey := trim key in
       if String.eqb cleanKey "__proto__" then cleanedRow
       else <[cleanKey := value]> cleanedRow)
    row acc !! name
  = match last_cell name row with
    | Some v => Some v
    | None => acc !! name
    end.
Proof.
  intros Hname. unfold last_cell. revert acc.
  induction row as [|[key value] row IH]; intros acc; [done|].
  cbn [fold_left List.filter fst]. rewrite IH.
  destruct (String.eqb_spec (trim key) name) as [Hk|Hk].
  - rewrite last_cons.
    destruct (last (List.filter _ row)) as [kv|]; [done|]. simpl.
    destruct (String.eqb_spec (trim key) "__proto__") as [Hp|_]; [congruence|].
    subst name. by rewrite lookup_insert_eq.
  - destruct (last (List.filter _ row)) as [kv|]; [done|]. simpl.
    destruct (String.eqb (trim key) "__proto__"); [done|].
    by rewrite lookup_insert_ne.
Qed.

(** X7: a cleaned row holds, under a name, the cell of the last column whose
    header trims to that name, and nothing under a name no header trims to;
    padding around a header does not hide its column.  No property named
    [__proto__] is ever created. *)
Theorem clean_row_lookup (row : PapaRow) (name : string) :
  (name <> "__proto__" -> clean_row row !! name = last_cell name row)
  /\ clean_row row !! "__proto__" = None.
Proof.
  split.
  - intros Hname. unfold clean_row. rewrite clean_row_fold by done.
    rewrite lookup_empty. by destruct (last_cell name row).
  - unfold clean_row. generalize (lookup_empty (M := gmap string) (A := JSValue) "__proto__").
    generalize (∅ : RawRow).
    induction row as [|[key value] row IH]; intros acc Hacc; [done|].
    cbn [fold_left]. apply IH.
    destruct (String.eqb_spec (trim key) "__proto__") as [Hp|Hp]; [done|].
    by rewrite lookup_insert_ne.
Qed.

Lemma padded_row_level :
  clean_row padded_row !! "sugarLevel" = Some (JSNumber (Fin 95)).
Proof.
  assert ("sugarLevel" <> "__proto__") as Hname by discriminate.
  rewrite (proj1 (clean_row_lookup padded_row "sugarLevel") Hname).
  vm_compute. reflexivity.
Defined.

(** ** The state after the load, and the view *)

Section Component.
Context `{Platform}.

Lemma processedData_nil_iff rows :
  processedData rows = []
  <-> forall row, In row rows ->
        ~ positive (parseFloat (prop row "sugarLevel")).
Proof.
  split.
  - intros Hnil row Hrow Hp.
    apply list_elem_of_In, list_elem_of_lookup in Hrow as [i Hi].
    destruct (processedData_In rows i row Hi Hp) as [label Hin].
    rewrite Hnil in Hin. destruct Hin.
  - intros Hall. destruct (processedData rows) as [|r l] eqn:E; [done|].
    assert (In r (processedData rows)) as Hr by (rewrite E; by left).
    apply In_processedData in Hr as (row & label & Hrow & Hp & _).
    destruct (Hall row); [|done].
    apply list_elem_of_In, list_elem_of_lookup. eauto.
Qed.

(** X8: once the effect run on mount has settled, the component is no
    longer loading.  Either an error is recorded, no rows are stored and the
    error panel is what is rendered; or no error is recorded, and then the
    load reached the parser, the parser completed, and the rows stored are
    its rows with cleaned headers. *)
Theorem mounted_settled (env : Env) (parse : string -> PapaOutcome) :
  loading (mounted env parse) = false
  /\ ((exists e, error (mounted env parse) = Some e
               /\ bloodSugarData (mounted env parse) = []
               /\ render (mounted env parse) = ErrorView e)
      \/ (error (mounted env parse) = None
          /\ exists csvData source results,
               snd (loadCSVData env) = Parsing csvData source
               /\ parse csvData = Complete results
               /\ bloodSugarData (mounted env parse)
                  = map clean_row (data results))).
Proof.
  unfold mounted, run_loadCSVData, parseCSV.
  destruct (snd (loadCSVData env)) as [csvData source|e] eqn:Hload.
  - destruct (parse csvData) as [results|message] eqn:Hparse.
    + split; [done|]. right. split; [done|]. by eexists _, _, _.
    + split; [done|]. left. eexists. split; [done|]. split; [done|].
      reflexivity.
  - split; [done|]. left. exists e. split; [done|]. split; [done|].
    unfold render, error_shown. simpl.
    unfold loadCSVData in Hload.
    destruct (load_text env) as [urls [[csv src]|message]];
      simpl in Hload; [discriminate|].
    injection Hload as <-. reflexivity.
Qed.


(** X10: after a load that stored rows without an error, the "No Data
    Found" panel is rendered exactly when no stored row has a level that
    parses to a positive number; an empty file is one such case. *)
Theorem no_data_iff (s : State) :
  loading s = false ->
  error_shown s = None ->
  (render s = NoDataView
   <-> forall row, In row (bloodSugarData s) ->
         ~ positive (parseFloat (prop row "sugarLevel"))).
Proof.
  intros Hl He. rewrite <- processedData_nil_iff.
  unfold render. rewrite Hl, He.
  destruct (processedData (bloodSugarData s)); split; done.
Qed.

End Component.


Lemma zero_level_state_no_data :
  @render (fixed_offset 0) zero_level_state = NoDataView.
Proof.
  apply (proj2 (@no_data_iff (fixed_offset 0) zero_level_state eq_refl eq_refl)).
  intros row [<-|[]].
  assert (@parseFloat (fixed_offset 0)
            (prop (row_of [("date", JSString "2024-01-02");
                           ("sugarLevel", JSNumber (Fin 0))]) "sugarLevel")
          = Fin 0) as -> by (vm_compute; reflexivity).
  vm_compute. discriminate.
Defined.

(** ** What the normalizer keeps *)

Section Retention.
Context `{Platform}.

Lemma filter_length_all {A} (f : A -> bool) (l : list A) :
  length (List.filter f l) = length l <-> forall x, In x l -> f x = true.
Proof.
  induction l as [|x l IH]; simpl; [split; [intros _ x [] | done]|].
  pose proof (filter_length_le f l) as Hle.
  destruct (f x) eqn:Hx; simpl.
  - split.
    + intros Hlen y [<-|Hy]; [done|]. apply IH; [lia | done].
    + intros Hall. f_equal. apply IH. auto.
  - split; [lia|]. intros Hall. specialize (Hall x (or_introl eq_refl)).
    congruence.
Qed.

Lemma processedData_length rows :
  length (processedData rows)
  = length (List.filter valid_level (imap normalize rows)).
Proof.
  rewrite processedData_eq, label_pass_length. unfold processed.
  symmetry. apply Permutation_length, Array_sort_perm.
Qed.

(** X11: normalization never adds readings.  It keeps every row exactly
    when every row has a level that parses to a positive number, and keeps
    none exactly when no row has. *)
Theorem retention_count (rows : list RawRow) :
  (length (processedData rows) <= length rows)%nat
  /\ (length (processedData rows) = length rows
      <-> forall row, In row rows ->
            positive (parseFloat (prop row "sugarLevel")))
  /\ (processedData rows = []
      <-> forall row, In row rows ->
            ~ positive (parseFloat (prop row "sugarLevel"))).
Proof.
  rewrite processedData_length. split; [|split].
  - rewrite <- (length_imap normalize rows). apply filter_length_le.
  - rewrite <- (length_imap normalize rows). rewrite filter_length_all.
    split.
    + intros Hall row Hrow.
      apply list_elem_of_In, list_elem_of_lookup in Hrow as [i Hi].
      apply (sugarLevel_normalize i), valid_level_positive, Hall.
      apply list_elem_of_In, elem_of_lookup_imap. eauto.
    + intros Hall r Hr.
      apply list_elem_of_In, elem_of_lookup_imap in Hr as (i & row & -> & Hi).
      apply valid_level_positive, sugarLevel_normalize, Hall.
      apply list_elem_of_In, list_elem_of_lookup. eauto.
  - apply processedData_nil_iff.
Qed.

Lemma sorted_ids_NoDup (l : list Reading) :
  StronglySorted (fun a b => (id a < id b)%nat) l -> List.NoDup (map id l).
Proof.
  induction 1 as [|x l Hl IH Hx]; simpl; constructor; [|done].
  intros Hin. apply in_map_iff in Hin as (y & Hid & Hy).
  rewrite Forall_forall in Hx. apply list_elem_of_In, Hx in Hy. lia.
Qed.

(** X12: no two readings of the normalized collection have the same [id]:
    an [id] names one reading as well as one raw row. *)
Theorem ids_distinct (rows : list RawRow) :
  List.NoDup (map id (processedData rows)).
Proof.
  rewrite processedData_eq, map_id_label_pass. unfold processed.
  eapply Permutation_NoDup.
  - apply Permutation_map, Array_sort_perm.
  - apply sorted_ids_NoDup, filter_sorted.
    apply (imap_normalize_ids (fun i => i)). auto.
Qed.

Lemma normalize_same_cells i r1 r2 :
  same_cells r1 r2 -> normalize i r1 = normalize i r2.
Proof.
  intros (Hd & Hs & Hty & Hti & Hn). unfold normalize.
  by rewrite Hd, Hs, Hty, Hti, Hn.
Qed.

Lemma imap_normalize_same_cells (f : nat -> nat) rows1 rows2 :
  Forall2 same_cells rows1 rows2 ->
  imap (fun i => normalize (f i)) rows1 = imap (fun i => normalize (f i)) rows2.
Proof.
  intros Hrows. revert f.
  induction Hrows as [|r1 r2 l1 l2 Hr Hl IH]; intros f; [done|].
  rewrite !imap_cons. f_equal; [by apply normalize_same_cells|].
  apply (IH (f ∘ S)).
Qed.

Lemma processedData_same_cells (rows1 rows2 : list RawRow) :
  Forall2 same_cells rows1 rows2 -> processedData rows1 = processedData rows2.
Proof.
  intros Hrows. rewrite !processedData_eq. unfold processed.
  assert (imap normalize rows1 = imap normalize rows2) as ->; [|done].
  exact (imap_normalize_same_cells (fun i => i) _ _ Hrows).
Qed.

(** X13: columns other than [date], [sugarLevel], [type], [time] and
    [notes] are ignored: two inputs whose rows agree on these five give the
    same normalized collection and the same statistics. *)
Theorem extra_columns_ignored (rows1 rows2 : list RawRow) :
  Forall2 same_cells rows1 rows2 ->
  processedData rows1 = processedData rows2 /\ stats rows1 = stats rows2.
Proof.
  intros Hrows. pose proof (processedData_same_cells _ _ Hrows) as Hpd.
  split; [done|]. unfold stats, fastingData, randomData. by rewrite Hpd.
Qed.

Lemma clean_row_prop (row : PapaRow) (name : string) :
  name <> "__proto__" ->
  prop (clean_row row) name = default JSUndefined (last_cell name row).
Proof.
  intros Hname. unfold prop, clean_row. rewrite clean_row_fold by done.
  rewrite lookup_empty. by destruct (last_cell name row).
Qed.

(** X19: padding around headers changes nothing downstream: two parses
    whose lines give the same cells for the five columns read, under headers
    that may differ in surrounding white space, give the same normalized
    collection once cleaned. *)
Theorem padded_headers_harmless (data1 data2 : list PapaRow) :
  Forall2 same_columns data1 data2 ->
  processedData (map clean_row data1) = processedData (map clean_row data2).
Proof.
  intros Hdata. apply processedData_same_cells.
  induction Hdata as [|r1 r2 l1 l2 Hr Hl IH]; simpl; constructor; [|done].
  unfold same_cells. rewrite !clean_row_prop by discriminate.
  rewrite !(Hr _) by (simpl; auto 10). done.
Qed.

Lemma label_pass_sorted m l :
  StronglySorted before l -> StronglySorted before (label_pass m l).
Proof.
  intros Hl. revert m. induction Hl as [|x l Hl IH Hx]; intros m; simpl.
  { constructor. }
  constructor; [apply IH|].
  apply Forall_forall. intros r Hr.
  apply list_elem_of_In, In_label_pass in Hr as (r0 & n & Hr0 & ->).
  rewrite Forall_forall in Hx. apply list_elem_of_In, Hx in Hr0.
  exact Hr0.
Qed.

Lemma processedData_sorted rows :
  (forall r, In r (processedData rows) -> date r <> None) ->
  StronglySorted before (processedData rows).
Proof.
  intros Hvalid. rewrite processedData_eq. apply label_pass_sorted.
  apply processed_sorted. intros r Hr.
  destruct (label_pass_In ∅ _ _ Hr) as [n Hn].
  rewrite <- processedData_eq in Hn. exact (Hvalid _ Hn).
Qed.

(** X14: the charts by type are in time order too.  When no reading carries
    an Invalid Date, the fasting readings and the random readings are each
    sorted by date, readings of one date in the order of their rows. *)
Theorem partitions_sorted (rows : list RawRow) (part : list Reading) :
  (forall r, In r (processedData rows) -> date r <> None) ->
  part = fastingData rows \/ part = randomData rows ->
  forall i j a b,
    (i < j)%nat -> part !! i = Some a -> part !! j = Some b ->
    exists x y,
      date a = Some x /\ date b = Some y
      /\ (x <= y)%Z /\ (x = y -> (id a < id b)%nat).
Proof.
  intros Hvalid Hpart i j a b Hij Ha Hb.
  assert (StronglySorted before part) as Hsorted.
  { destruct Hpart as [-> | ->]; apply filter_sorted;
      by apply processedData_sorted. }
  pose proof (sorted_lookup _ _ _ _ _ _ Hsorted Hij Ha Hb) as Hab.
  unfold before in Hab.
  destruct (date a) as [x|]; [|done]. destruct (date b) as [y|]; [|done].
  exists x, y. repeat split; lia.
Qed.

End Retention.

Lemma scenario_rows_extra_same :
  @processedData (fixed_offset 0) scenario_rows_extra
  = @processedData (fixed_offset 0) scenario_rows
  /\ @stats (fixed_offset 0) scenario_rows_extra
     = @stats (fixed_offset 0) scenario_rows.
Proof.
  apply (@extra_columns_ignored (fixed_offset 0)).
  repeat constructor.
Defined.

Lemma two_random_in_row_order :
  exists x y,
    Some jan_1_2024 = Some x /\ Some jan_1_2024 = Some y
    /\ (x <= y)%Z /\ (x = y -> (1 < 2)%nat).
Proof.
  pose (a := {| id := 1; date := Some jan_1_2024; dateStr := "Jan 1";
                sugarLevel := Fin 150; type := JSString "RANDOM";
                time := JSString ""; notes := JSString "";
                displayDate := Some "Jan 1" |}).
  pose (b := {| id := 2; date := Some jan_1_2024; dateStr := "Jan 1";
                sugarLevel := Fin 160; type := JSString "RANDOM";
                time := JSString ""; notes := JSString "";
                displayDate := Some "Jan 1 #2" |}).
  assert (forall r, In r (@processedData (fixed_offset 0) rows_two_random) ->
                    date r <> None) as Hvalid.
  { intros r Hr. vm_compute in Hr.
    destruct Hr as [<-|[<-|[<-|[]]]]; discriminate. }
  assert (@randomData (fixed_offset 0) rows_two_random !! 0%nat = Some a)
    as Ha by (vm_compute; reflexivity).
  assert (@randomData (fixed_offset 0) rows_two_random !! 1%nat = Some b)
    as Hb by (vm_compute; reflexivity).
  exact (@partitions_sorted (fixed_offset 0) rows_two_random _ Hvalid
           (or_intror eq_refl) 0%nat 1%nat a b (le_n 1) Ha Hb).
Defined.

(** ** When display labels collide *)

Lemma append_cancel_l (base s1 s2 : string) :
  base +:+ s1 = base +:+ s2 -> s1 = s2.
Proof. induction base as [|c base IH]; simpl; [done|]. intros [= Heq]. auto. Qed.

Lemma append_same_length (s1 s2 t1 t2 : string) :
  String.length s1 = String.length s2 ->
  s1 +:+ t1 = s2 +:+ t2 -> s1 = s2.
Proof.
  revert s2. induction s1 as [|c s1 IH]; intros [|d s2]; simpl; try done.
  intros [= Hlen] [= -> Heq]. f_equal. by apply IH.
Qed.

Lemma append_length (s t : string) :
  String.length (s +:+ t) = (String.length s + String.length t)%nat.
Proof. induction s as [|c s IH]; simpl; [done|]. by rewrite IH. Qed.

Lemma append_cancel_r (s1 s2 t : string) :
  s1 +:+ t = s2 +:+ t -> s1 = s2.
Proof.
  intros Heq. apply (append_same_length s1 s2 t t); [|done].
  apply (f_equal String.length) in Heq. rewrite !append_length in Heq. lia.
Qed.

Lemma append_not_self (base : string) (c : ascii) (s : string) :
  base <> base +:+ String c s.
Proof.
  intros Heq. apply (f_equal String.length) in Heq.
  rewrite append_length in Heq. simpl in Heq. lia.
Qed.

Lemma filter_length_pos {A} (f : A -> bool) (l : list A) (x : A) :
  In x l -> f x = true -> (0 < length (List.filter f l))%nat.
Proof.
  intros Hx Hf.
  assert (In x (List.filter f l)) as Hin by (by apply filter_In).
  destruct (List.filter f l); [destruct Hin | simpl; lia].
Qed.

Lemma occurrence_pos (l : list Reading) i r :
  l !! i = Some r -> (1 <= occurrence l i r)%nat.
Proof.
  intros Hi. unfold occurrence. apply (filter_length_pos _ _ r).
  - apply list_elem_of_In, list_elem_of_lookup. exists i.
    rewrite lookup_take_lt by lia. done.
  - apply String.eqb_refl.
Qed.

Lemma occurrence_lt (l : list Reading) i j a b :
  (i < j)%nat -> l !! i = Some a -> l !! j = Some b ->
  dateStr a = dateStr b ->
  (occurrence l i a < occurrence l j b)%nat.
Proof.
  intros Hij Ha Hb Hday. unfold occurrence. rewrite Hday.
  rewrite <- (take_drop (S i) (take (S j) l)).
  rewrite take_take, Nat.min_l by lia.
  rewrite List.filter_app, length_app.
  assert (0 < length (List.filter
                        (fun x => String.eqb (dateStr x) (dateStr b))
                        (drop (S i) (take (S j) l))))%nat; [|lia].
  apply (filter_length_pos _ _ b); [|apply String.eqb_refl].
  apply list_elem_of_In, list_elem_of_lookup. exists (j - S i)%nat.
  rewrite lookup_drop, lookup_take_lt by lia.
  replace (S i + (j - S i))%nat with j by lia. done.
Qed.

Section Collisions.
Context `{Platform}.

(** The label of a reading that is not the first of its day. *)
Lemma display_label_later n r :
  (1 < n)%nat ->
  display_label n r
  = dateStr r +:+ (if truthy (time r)
                   then " (" +:+ ToString (time r) +:+ ")"
                   else " #" +:+ pretty n).
Proof.
  intros Hn. unfold display_label.
  destruct (Nat.ltb_spec 1 n); [done | lia].
Qed.

(** X15: of two readings with the same day label, the earlier and the later
    receive the same display label exactly when the earlier is not the first
    of its day and both carry a time that prints the same.  The first
    reading of a day never shares its label, and neither does a reading
    without a time. *)
Theorem display_labels_collide_iff (rows : list RawRow) i j a b :
  (i < j)%nat ->
  processedData rows !! i = Some a ->
  processedData rows !! j = Some b ->
  dateStr a = dateStr b ->
  (displayDate a = displayDate b
   <-> (1 < occurrence (processedData rows) i a)%nat
       /\ truthy (time a) = true /\ truthy (time b) = true
       /\ ToString (time a) = ToString (time b)).
Proof.
  intros Hij Ha Hb Hday.
  pose proof (occurrence_lt _ _ _ _ _ Hij Ha Hb Hday) as Hlt.
  pose proof (occurrence_pos _ _ _ Ha) as Hpos.
  rewrite (label_mechanism _ _ _ Ha), (label_mechanism _ _ _ Hb).
  set (na := occurrence (processedData rows) i a) in *.
  set (nb := occurrence (processedData rows) j b) in *.
  rewrite (display_label_later nb b) by lia. rewrite <- Hday.
  destruct (decide (na = 1%nat)) as [Hna|Hna].
  - rewrite Hna. unfold display_label. simpl. split; [|lia].
    intros [= Heq]. exfalso.
    destruct (truthy (time b)); simpl in Heq;
      by apply append_not_self in Heq.
  - rewrite (display_label_later na a) by lia.
    destruct (truthy (time a)) eqn:Hta, (truthy (time b)) eqn:Htb.
    + split.
      * intros [= Heq]. apply append_cancel_l in Heq. simpl in Heq.
        injection Heq as Heq.
        apply (append_cancel_l "") in Heq. apply append_cancel_r in Heq.
        repeat split; [lia | done].
      * intros (_ & _ & _ & ->). reflexivity.
    + split; [|intros (_ & _ & [=] & _)].
      intros [= Heq]. apply append_cancel_l in Heq. discriminate Heq.
    + split; [|intros (_ & [=] & _)].
      intros [= Heq]. apply append_cancel_l in Heq. discriminate Heq.
    + split; [|intros (_ & [=] & _)].
      intros [= Heq]. apply append_cancel_l in Heq. simpl in Heq.
      injection Heq as Heq. apply (append_cancel_l "") in Heq.
      apply (inj pretty) in Heq. lia.
Qed.

(** X16: a reading shows the bare day label exactly when it is the first
    reading of its day in the normalized collection. *)
Theorem bare_label_iff_first (rows : list RawRow) i r :
  processedData rows !! i = Some r ->
  (displayDate r = Some (dateStr r)
   <-> occurrence (processedData rows) i r = 1%nat).
Proof.
  intros Hr. pose proof (occurrence_pos _ _ _ Hr) as Hpos.
  rewrite (label_mechanism _ _ _ Hr).
  set (n := occurrence (processedData rows) i r) in *.
  split.
  - intros [= Heq]. destruct (decide (n = 1%nat)) as [|Hn]; [done|].
    rewrite display_label_later in Heq by lia. exfalso.
    symmetry in Heq.
    destruct (truthy (time r)); simpl in Heq;
      by apply append_not_self in Heq.
  - intros ->. reflexivity.
Qed.

End Collisions.

Lemma same_time_labels_collide :
  displayDate same_time_second = displayDate same_time_third.
Proof.
  assert (@processedData (fixed_offset 0) rows_same_time !! 1%nat
          = Some same_time_second) as Ha by (vm_compute; reflexivity).
  assert (@processedData (fixed_offset 0) rows_same_time !! 2%nat
          = Some same_time_third) as Hb by (vm_compute; reflexivity).
  apply (proj2 (@display_labels_collide_iff (fixed_offset 0) rows_same_time
                  1%nat 2%nat same_time_second same_time_third
                  (le_n 2) Ha Hb eq_refl)).
  repeat split. vm_compute. lia.
Defined.

Lemma scenario_first_bare_label :
  displayDate scenario_first = Some (dateStr scenario_first).
Proof.
  assert (@processedData (fixed_offset 0) scenario_rows !! 0%nat
          = Some scenario_first) as Hr by (vm_compute; reflexivity).
  apply (proj2 (@bare_label_iff_first (fixed_offset 0) scenario_rows
                  0%nat scenario_first Hr)).
  vm_compute. reflexivity.
Defined.

(** ** Extrema of the groups *)

Section Groups.
Context `{Platform}.

Lemma part_extrema (f : Reading -> bool) (rows : list RawRow) :
  List.filter f (processedData rows) <> [] ->
  let part := map sugarLevel (List.filter f (processedData rows)) in
  let all := map sugarLevel (processedData rows) in
  num_le (Math_min all) (Math_min part)
  /\ num_le (Math_min part) (Math_max part)
  /\ num_le (Math_max part) (Math_max all).
Proof.
  intros Hne part all.
  pose proof (positive_levels rows) as Hall. fold all in Hall.
  pose proof (positive_levels_filter f _ Hall) as Hpart. fold part in Hpart.
  assert (part <> []) as Hne1.
  { subst part. by destruct (List.filter f (processedData rows)). }
  assert (all <> []) as Hne2.
  { subst all. destruct (processedData rows); [by destruct Hne | done]. }
  assert (forall x, In x part -> In x all) as Hsub.
  { intros x Hx. apply in_map_iff in Hx as (r & <- & Hr).
    apply filter_In in Hr as [Hr _]. by apply in_map. }
  assert (forall l, Forall positive l -> Forall (fun x => isNaN x = false) l)
    as Hnan.
  { intros l Hl. eapply List.Forall_impl; [|exact Hl]. apply positive_not_NaN. }
  destruct (Math_min_least all Hne2 (Hnan _ Hall)) as [_ Hlo].
  destruct (Math_max_greatest all Hne2 (Hnan _ Hall)) as [_ Hhi].
  destruct (Math_min_least part Hne1 (Hnan _ Hpart)) as [Hlo_in Hlo'].
  destruct (Math_max_greatest part Hne1 (Hnan _ Hpart)) as [Hhi_in Hhi'].
  unfold num_le. split; [|split].
  - apply (Hlo _ (Hsub _ Hlo_in)).
  - apply (Hlo' _ Hhi_in).
  - apply (Hhi _ (Hsub _ Hhi_in)).
Qed.

(** X18: whenever the fasting card or the random card shows a highest
    level, it shows a lowest level too, and the two lie within the overall
    range: overall lowest, the group's lowest, the group's highest and the
    overall highest come in this order. *)
Theorem group_extrema_within_overall (rows : list RawRow) (g : Group)
    (hi_g : JSNum) :
  g = fasting (stats rows) \/ g = random (stats rows) ->
  max g = JSNumber hi_g ->
  exists lo_g lo hi,
    min g = JSNumber lo_g
    /\ min (overall (stats rows)) = JSNumber lo
    /\ max (overall (stats rows)) = JSNumber hi
    /\ num_le lo lo_g /\ num_le lo_g hi_g /\ num_le hi_g hi.
Proof.
  intros Hg Hmax.
  destruct (processedData rows) as [|r0 l0] eqn:E.
  { rewrite (stats_empty _ E) in Hg. by destruct Hg as [-> | ->]. }
  assert (processedData rows <> []) as Hne by (by rewrite E).
  rewrite (stats_nonempty _ Hne) in Hg |- *. simpl in Hg |- *.
  destruct Hg as [-> | ->]; simpl in Hmax |- *.
  - unfold fastingData in *.
    set (f := fun d => strict_eq (type d) (JSString "FASTING")) in *.
    destruct (List.filter f (processedData rows)) as [|x l] eqn:Ef;
      [discriminate Hmax|].
    assert (List.filter f (processedData rows) <> []) as Hfne
      by (by rewrite Ef).
    pose proof (part_extrema f rows Hfne) as Hp. rewrite Ef in Hp.
    simpl in Hmax, Hp |- *. injection Hmax as <-.
    eexists _, _, _. repeat split; apply Hp.
  - unfold randomData in *.
    set (f := fun d => strict_eq (type d) (JSString "RANDOM")) in *.
    destruct (List.filter f (processedData rows)) as [|x l] eqn:Ef;
      [discriminate Hmax|].
    assert (List.filter f (processedData rows) <> []) as Hfne
      by (by rewrite Ef).
    pose proof (part_extrema f rows Hfne) as Hp. rewrite Ef in Hp.
    simpl in Hmax, Hp |- *. injection Hmax as <-.
    eexists _, _, _. repeat split; apply Hp.
Qed.

End Groups.

Lemma padded_row_same_reading :
  @processedData (fixed_offset 0) (map clean_row [padded_row])
  = @processedData (fixed_offset 0) (map clean_row [unpadded_row]).
Proof.
  apply (@padded_headers_harmless (fixed_offset 0)).
  repeat constructor.
  intros name [<-|[<-|[<-|[<-|[<-|[]]]]]]; vm_compute; reflexivity.
Defined.

Lemma scenario_fasting_within_overall :
  exists lo_g lo hi,
    min (fasting (@stats (fixed_offset 0) scenario_rows)) = JSNumber lo_g
    /\ min (overall (@stats (fixed_offset 0) scenario_rows)) = JSNumber lo
    /\ max (overall (@stats (fixed_offset 0) scenario_rows)) = JSNumber hi
    /\ num_le lo lo_g /\ num_le lo_g (Fin 95) /\ num_le (Fin 95) hi.
Proof.
  assert (max (fasting (@stats (fixed_offset 0) scenario_rows))
          = JSNumber (Fin 95)) as Hmax by (vm_compute; reflexivity).
  exact (@group_extrema_within_overall (fixed_offset 0) scenario_rows
           _ (Fin 95) (or_introl eq_refl) Hmax).
Defined.
